(** * Airline demand dashboard (app.py): route network, ranking, trend simulator

    A shallow embedding of [src/app.py].  Tables are lists of records whose
    string columns are [option string] ([None] is pandas' NaN), integers are
    [Z], float64 quantities are idealised as real numbers, and everything the
    script reads from outside itself (the interpreter's string-hash secret,
    the operating system's entropy, the wall clock, the environment variable
    holding the API key and the HTTP peer) lives in an explicit [World] that
    is threaded through the calls. *)

From Stdlib Require Import ZArith List String Ascii Bool Lia Reals Lra.
From Stdlib Require Import Permutation Sorted OrdersEx RelationClasses.
Import ListNotations.

Set Warnings "-register-all".
Local Open Scope Z_scope.

(** ** The interpreter's [hash] on [str]

    Lines 74 and 85 call the builtin [hash(route)].  For a [str] CPython
    computes a keyed SipHash of the string's bytes (Python/pyhash.c); the key
    is the per-process secret, drawn at interpreter start-up unless
    PYTHONHASHSEED pins it. *)
Module PyHash.

Definition mask64 : Z := 0xFFFFFFFFFFFFFFFF.
Definition wrap64 (x : Z) : Z := Z.land x mask64.

(* #define ROTATE(x, b) (uint64_t)( ((x) << (b)) | ( (x) >> (64 - (b))) ) *)
Definition ROTATE (x b : Z) : Z :=
  wrap64 (Z.lor (Z.shiftl x b) (Z.shiftr x (64 - b))).

Record sipstate : Type := SipState { v0 : Z; v1 : Z; v2 : Z; v3 : Z }.

(* HALF_ROUND(a,b,c,d,s,t): a += b; c += d; b = ROTATE(b,s) ^ a;
   d = ROTATE(d,t) ^ c; a = ROTATE(a,32); the result is (a, b, c, d). *)
Definition HALF_ROUND (a b c d s t : Z) : Z * Z * Z * Z :=
  let a := wrap64 (a + b) in
  let c := wrap64 (c + d) in
  let b := Z.lxor (ROTATE b s) a in
  let d := Z.lxor (ROTATE d t) c in
  let a := ROTATE a 32 in
  (a, b, c, d).

(* SINGLE_ROUND: HALF_ROUND(v0,v1,v2,v3,13,16); HALF_ROUND(v2,v1,v0,v3,17,21) *)
Definition SINGLE_ROUND (st : sipstate) : sipstate :=
  let '(a0, a1, a2, a3) := HALF_ROUND (v0 st) (v1 st) (v2 st) (v3 st) 13 16 in
  let '(b2, b1, b0, b3) := HALF_ROUND a2 a1 a0 a3 17 21 in
  SipState b0 b1 b2 b3.

Fixpoint rounds (n : nat) (st : sipstate) : sipstate :=
  match n with
  | O => st
  | S n' => rounds n' (SINGLE_ROUND st)
  end.

(* little-endian load of at most eight bytes *)
Fixpoint le_bytes (bs : list Z) : Z :=
  match bs with
  | [] => 0
  | b :: rest => Z.lor b (Z.shiftl (le_bytes rest) 8)
  end.

Definition absorb (c : nat) (st : sipstate) (m : Z) : sipstate :=
  let st := SipState (v0 st) (v1 st) (v2 st) (Z.lxor (v3 st) m) in
  let st := rounds c st in
  SipState (Z.lxor (v0 st) m) (v1 st) (v2 st) (v3 st).

(* while (src_sz >= 8) { ... }: returns the state and the unread tail *)
Fixpoint blocks (c : nat) (st : sipstate) (bs : list Z) {struct bs}
  : sipstate * list Z :=
  match bs with
  | b0 :: b1 :: b2 :: b3 :: b4 :: b5 :: b6 :: b7 :: rest =>
      blocks c (absorb c st (le_bytes [b0; b1; b2; b3; b4; b5; b6; b7])) rest
  | _ => (st, bs)
  end.

(* SipHash with [c] compression rounds and [d] finalisation rounds *)
Definition siphash (c d : nat) (k0 k1 : Z) (src : list Z) : Z :=
  let b := wrap64 (Z.shiftl (Z.of_nat (List.length src)) 56) in
  let st := SipState (Z.lxor k0 0x736f6d6570736575)
                     (Z.lxor k1 0x646f72616e646f6d)
                     (Z.lxor k0 0x6c7967656e657261)
                     (Z.lxor k1 0x7465646279746573) in
  let '(st, tail) := blocks c st src in
  let b := Z.lor b (le_bytes tail) in
  let st := absorb c st b in
  let st := SipState (v0 st) (v1 st) (Z.lxor (v2 st) 0xff) (v3 st) in
  let st := rounds d st in
  Z.lxor (Z.lxor (v0 st) (v1 st)) (Z.lxor (v2 st) (v3 st)).

(** The algorithm is fixed when the interpreter is built: SipHash-1-3 from
    Python 3.11 on, SipHash-2-4 before. *)
Inductive algorithm : Type := siphash13 | siphash24.

Record secret : Type := Secret { alg : algorithm; k0 : Z; k1 : Z }.

Definition pysiphash (s : secret) (src : list Z) : Z :=
  match alg s with
  | siphash13 => siphash 1 3 (k0 s) (k1 s) src
  | siphash24 => siphash 2 4 (k0 s) (k1 s) src
  end.

(* (Py_hash_t) of a uint64_t *)
Definition to_Py_hash_t (x : Z) : Z :=
  if x <? 2 ^ 63 then x else x - 2 ^ 64.

Definition bytes_of_string (s : string) : list Z :=
  List.map (fun a => Z.of_nat (nat_of_ascii a)) (list_ascii_of_string s).

(* _Py_HashBytes: the empty string hashes to 0 and -1 is never returned *)
Definition hash (s : secret) (str : string) : Z :=
  match bytes_of_string str with
  | [] => 0
  | src =>
      let x := to_Py_hash_t (pysiphash s src) in
      if x =? -1 then -2 else x
  end.

(** PYTHONHASHSEED=n (n > 0) derives the secret with a linear congruential
    generator (lcg_urandom in Python/bootstrap_hash.c); PYTHONHASHSEED=0
    zeroes it. *)
Fixpoint lcg_urandom (x : Z) (size : nat) : list Z :=
  match size with
  | O => []
  | S size' =>
      let x := Z.land (x * 214013 + 2531011) 0xFFFFFFFF in
      Z.land (Z.shiftr x 16) 0xff :: lcg_urandom x size'
  end.

Definition secret_of_PYTHONHASHSEED (a : algorithm) (n : Z) : secret :=
  if n =? 0 then Secret a 0 0
  else
    let buf := lcg_urandom n 24 in
    Secret a (le_bytes (firstn 8 buf)) (le_bytes (firstn 8 (skipn 8 buf))).

End PyHash.

(** ** Month axis: [pd.date_range(end=pd.Timestamp.today(), periods=months, freq="M")]

    Lines 78 and 88.  [freq="M"] is pandas' MonthEnd offset; the definitions
    follow MonthOffset, roll_convention and shift_month of
    pandas/_libs/tslibs/offsets.pyx and _generate_range of
    pandas/core/arrays/datetimes.py.  A timestamp keeps its time of day
    ([normalize=False]), held here as nanoseconds since midnight. *)
Module Calendar.

Record Timestamp : Type :=
  mkTimestamp { year : Z; month : Z; day : Z; nanos : Z }.

Definition is_leapyear (y : Z) : bool :=
  ((y mod 4 =? 0) && negb (y mod 100 =? 0)) || (y mod 400 =? 0).

Definition get_days_in_month (y m : Z) : Z :=
  if m =? 2 then (if is_leapyear y then 29 else 28)
  else if (m =? 4) || (m =? 6) || (m =? 9) || (m =? 11) then 30
  else 31.

Definition valid (t : Timestamp) : Prop :=
  1 <= month t <= 12 /\
  1 <= day t <= get_days_in_month (year t) (month t) /\
  0 <= nanos t < 86400000000000.

Definition eqb (a b : Timestamp) : bool :=
  (year a =? year b) && (month a =? month b) &&
  (day a =? day b) && (nanos a =? nanos b).

Definition ltb (a b : Timestamp) : bool :=
  (year a <? year b) ||
  ((year a =? year b) &&
   ((month a <? month b) ||
    ((month a =? month b) &&
     ((day a <? day b) ||
      ((day a =? day b) && (nanos a <? nanos b)))))).

Definition leb (a b : Timestamp) : bool := ltb a b || eqb a b.

(* MonthEnd.is_on_offset: dt.day == days_in_month *)
Definition is_on_offset (dt : Timestamp) : bool :=
  day dt =? get_days_in_month (year dt) (month dt).

Definition roll_convention (other n compare : Z) : Z :=
  if (0 <? n) && (other <? compare) then n - 1
  else if (n <=? 0) && (compare <? other) then n + 1
  else n.

(* shift_month(stamp, months, day_opt="end") *)
Definition shift_month (stamp : Timestamp) (months : Z) : Timestamp :=
  let dy := (month stamp + months) / 12 in
  let m := (month stamp + months) mod 12 in
  let m' := if m =? 0 then 12 else m in
  let dy' := if m =? 0 then dy - 1 else dy in
  let y := year stamp + dy' in
  mkTimestamp y m' (get_days_in_month y m') (nanos stamp).

(* other + MonthEnd(n) *)
Definition MonthEnd_apply (n : Z) (other : Timestamp) : Timestamp :=
  let compare_day := get_days_in_month (year other) (month other) in
  shift_month other (roll_convention (day other) n compare_day).

(* MonthEnd.rollback: dt if on offset, else dt - MonthEnd(1) *)
Definition rollback (dt : Timestamp) : Timestamp :=
  if is_on_offset dt then dt else MonthEnd_apply (-1) dt.

(* The generator loop of _generate_range for a non-negative offset:
     cur = start
     while cur <= end: yield cur; if cur == end: break; cur = cur + offset
   [fuel] bounds the number of iterations. *)
Fixpoint generate_loop (fuel : nat) (cur end_ : Timestamp) : list Timestamp :=
  match fuel with
  | O => []
  | S fuel' =>
      if leb cur end_ then
        cur :: (if eqb cur end_ then []
                else generate_loop fuel' (MonthEnd_apply 1 cur) end_)
      else []
  end.

(* _generate_range(start=None, end, periods, MonthEnd):
     end = rollback(end); start = end - (periods - 1) * offset *)
Definition generate_range (fuel : nat) (end_ : Timestamp) (periods : nat)
  : list Timestamp :=
  let end_ := rollback end_ in
  let start := MonthEnd_apply (- (Z.of_nat periods - 1)) end_ in
  generate_loop fuel start end_.

Definition date_range (end_ : Timestamp) (periods : nat) : list Timestamp :=
  generate_range periods end_ periods.

(** Months counted from year 0, and the month-end stamp of such a month:
    used to state what the axis contains. *)
Definition month_ordinal (t : Timestamp) : Z := year t * 12 + (month t - 1).

Definition month_end (o ns : Z) : Timestamp :=
  mkTimestamp (o / 12) (o mod 12 + 1)
              (get_days_in_month (o / 12) (o mod 12 + 1)) ns.

(* the month the axis ends in: this month on its last day, else the one before *)
Definition anchor (today : Timestamp) : Z :=
  if is_on_offset today then month_ordinal today else month_ordinal today - 1.

End Calendar.

(** ** JSON values and the HTTP peer *)
Module Http.

Inductive json : Type :=
| JNull
| JBool (b : bool)
| JNum (n : Z)
| JStr (s : string)
| JArr (items : list json)
| JObj (fields : list (string * json)).

(* params of the GET request of lines 97-104 *)
Record Request : Type := mkRequest {
  url : string;
  access_key : string;
  dep_iata : string;
  arr_iata : string;
  limit : Z;
  timeout : Z
}.

(** What [requests.get] followed by [raise_for_status] and [json] can meet:
    the call itself raises (connection error, timeout), or a response comes
    back with a status code, the text [raise_for_status] puts in its
    HTTPError for a 4xx or 5xx status, and a body that is either JSON or
    makes [resp.json()] raise with a message. *)
Inductive outcome : Type :=
| Raised (message : string)
| Responded (status_code : Z) (http_error : string) (body : string + json).

End Http.

(** ** The world outside the script *)
Module Runtime.

Record World : Type := mkWorld {
  hash_secret : PyHash.secret;          (* fixed for the life of the process *)
  os_entropy : nat -> N;                (* what the OS hands out, draw by draw *)
  entropy_drawn : nat;
  wall_clock : nat -> Calendar.Timestamp; (* successive readings of the clock *)
  clock_read : nat;
  AVIATIONSTACK_KEY : option string;    (* os.getenv at import, line 15 *)
  peer : Http.Request -> Http.outcome;  (* the network and the remote API *)
  requests_sent : list Http.Request
}.

(** Code with effects: a state monad over the world. *)
Definition Py (A : Type) : Type := World -> A * World.

Definition ret {A : Type} (a : A) : Py A := fun w => (a, w).

Definition bind {A B : Type} (m : Py A) (k : A -> Py B) : Py B :=
  fun w => let (a, w') := m w in k a w'.

Definition run {A : Type} (m : Py A) (w : World) : A * World := m w.
Definition result {A : Type} (m : Py A) (w : World) : A := fst (m w).
Definition world_after {A : Type} (m : Py A) (w : World) : World := snd (m w).

(* hash(s) *)
Definition builtin_hash (s : string) : Py Z :=
  fun w => (PyHash.hash (hash_secret w) s, w).

(* one draw of OS entropy (SeedSequence() with no argument) *)
Definition draw_entropy : Py N :=
  fun w =>
    (os_entropy w (entropy_drawn w),
     mkWorld (hash_secret w) (os_entropy w) (S (entropy_drawn w))
             (wall_clock w) (clock_read w) (AVIATIONSTACK_KEY w)
             (peer w) (requests_sent w)).

(* pd.Timestamp.today() *)
Definition Timestamp_today : Py Calendar.Timestamp :=
  fun w =>
    (wall_clock w (clock_read w),
     mkWorld (hash_secret w) (os_entropy w) (entropy_drawn w)
             (wall_clock w) (S (clock_read w)) (AVIATIONSTACK_KEY w)
             (peer w) (requests_sent w)).

(* the module-level global AVIATIONSTACK_KEY *)
Definition read_key : Py (option string) :=
  fun w => (AVIATIONSTACK_KEY w, w).

(* requests.get(url, params=params, timeout=10) *)
Definition requests_get (req : Http.Request) : Py Http.outcome :=
  fun w =>
    (peer w req,
     mkWorld (hash_secret w) (os_entropy w) (entropy_drawn w)
             (wall_clock w) (clock_read w) (AVIATIONSTACK_KEY w)
             (peer w) (requests_sent w ++ [req])).

End Runtime.

Declare Scope py_scope.
Delimit Scope py_scope with py.
Notation "x <- m ;; k" := (Runtime.bind m (fun x => k))
  (at level 61, m at next level, right associativity) : py_scope.

(** ** Trend simulator (lines 70-89) *)
Module Simulator.
Import Runtime.
Local Open Scope R_scope.
Local Open Scope py_scope.

(** [months] is a natural number and a seed is [None] or a natural number:
    numpy rejects a negative size and a negative seed before anything is
    drawn. *)

(** A numpy [Generator]: the integer its bit generator was seeded with and
    how many normal variates it has handed out. *)
Record Generator : Type := mkGenerator { seeded_with : N; drawn : nat }.

(* one data frame per series: equal-length columns *)
Record PriceFrame : Type := mkPriceFrame {
  price_month : list Calendar.Timestamp;
  price : list R
}.

Record BookingFrame : Type := mkBookingFrame {
  bookings_month : list Calendar.Timestamp;
  bookings : list Z
}.

(* np.arange(months) *)
Definition arange (months : nat) : list nat := seq 0 months.

(* scalar + array, array + array *)
Definition scalar_add (c : R) (a : list R) : list R := map (fun x => c + x) a.
Definition array_add (a b : list R) : list R :=
  map (fun xy => fst xy + snd xy) (combine a b).

(* float64 -> int64 conversion of .astype(int): truncation toward zero *)
Definition astype_int (x : R) : Z :=
  if Rle_dec 0 x then Zfloor x else (- Zfloor (- x))%Z.

Definition months_default : nat := 24.
Definition seed_default : option N := None.

Section Numpy.

(** [standard_normal s i] is the [i]-th standard-normal variate of a PCG64
    generator freshly seeded with the integer [s]: numpy's algorithm, the
    same in every process. *)
Variable standard_normal : N -> nat -> R.

(* np.random.default_rng(seed): seed=None pulls fresh entropy from the OS *)
Definition default_rng (seed : option N) : Py Generator :=
  match seed with
  | Some s => ret (mkGenerator s 0)
  | None => e <- draw_entropy ;; ret (mkGenerator e 0)
  end.

(* rng.normal(loc, scale, size): loc + scale * z for the next [size] variates *)
Definition normal (loc scale : R) (size : nat) (rng : Generator)
  : list R * Generator :=
  (map (fun i => loc + scale * standard_normal (seeded_with rng) (drawn rng + i))
       (seq 0 size),
   mkGenerator (seeded_with rng) (drawn rng + size)).

Definition simulate_price_trend (route : string) (months : nat)
  (seed : option N) : Py PriceFrame :=
  rng <- default_rng seed ;;
  let t := arange months in
  let season := map (fun t => 15 * sin (2 * PI * INR t / 12)) t in
  h <- builtin_hash route ;;
  let base := (100 + h mod 50)%Z in
  let trend := map (fun t => 0.5 * INR t) t in
  let noise := fst (normal 0 6 months rng) in
  let prices :=
    array_add (array_add (scalar_add (IZR base) season) trend) noise in
  today <- Timestamp_today ;;
  let dates := Calendar.date_range today months in
  ret (mkPriceFrame dates prices).

Definition simulate_booking_counts (route : string) (months : nat)
  (seed : option N) : Py BookingFrame :=
  rng <- default_rng seed ;;
  let t := arange months in
  let season := map (fun t => 300 * (1 + 0.4 * sin (2 * PI * INR t / 12))) t in
  h <- builtin_hash route ;;
  let base := (500 + h mod 200)%Z in
  let noise := fst (normal 0 40 months rng) in
  let counts :=
    map (fun x => astype_int (Rmax 0 x))
        (array_add (scalar_add (IZR base) season) noise) in
  today <- Timestamp_today ;;
  let dates := Calendar.date_range today months in
  ret (mkBookingFrame dates counts).

(* the calls that leave months and seed to their defaults *)
Definition simulate_price_trend_defaults (route : string) : Py PriceFrame :=
  simulate_price_trend route months_default seed_default.

Definition simulate_booking_counts_defaults (route : string) : Py BookingFrame :=
  simulate_booking_counts route months_default seed_default.

(* lines 145-146: both series for one route *)
Definition simulate (route : string) (months : nat) (seed : option N)
  : Py (PriceFrame * BookingFrame) :=
  price_df <- simulate_price_trend route months seed ;;
  book_df <- simulate_booking_counts route months seed ;;
  ret (price_df, book_df).

(** The noise arrays the two functions draw (lines 76 and 86), named so that
    statements can speak of them. *)
Definition price_noise (months : nat) (seed : option N) : Py (list R) :=
  rng <- default_rng seed ;; ret (fst (normal 0 6 months rng)).

Definition booking_noise (months : nat) (seed : option N) : Py (list R) :=
  rng <- default_rng seed ;; ret (fst (normal 0 40 months rng)).

End Numpy.

(* the integer the generator of a call made in [w] ends up seeded with *)
Definition effective_seed (seed : option N) (w : World) : N :=
  match seed with
  | Some s => s
  | None => os_entropy w (entropy_drawn w)
  end.

(* base of line 74 and base of line 85 *)
Definition price_base (route : string) : Py Z :=
  h <- builtin_hash route ;; ret (100 + h mod 50)%Z.

Definition booking_base (route : string) : Py Z :=
  h <- builtin_hash route ;; ret (500 + h mod 200)%Z.

End Simulator.

(** ** Tables: airports, routes and their join (lines 45-67) *)
Module Tables.
Local Open Scope string_scope.

(* a cell of a dtype=str column: None is NaN *)
Definition cell : Type := option string.

Record Airport : Type := mkAirport {
  AirportID : cell; Name : cell; City : cell; Country : cell;
  IATA : cell; ICAO : cell; Latitude : cell; Longitude : cell;
  Altitude : cell; Timezone : cell; DST : cell;
  TzDatabaseTimeZone : cell; AirportType : cell; AirportSource : cell
}.

Record Route : Type := mkRoute {
  Airline : cell; AirlineID : cell;
  SourceIATA : cell; SourceAirportID : cell;
  DestIATA : cell; DestAirportID : cell;
  Codeshare : cell; Stops : cell; Equipment : cell
}.

(* the five columns a merge carries over from the matched airport *)
Record Endpoint : Type := mkEndpoint {
  EpCity : cell; EpCountry : cell; EpName : cell; EpLat : cell; EpLon : cell
}.

(* a row of the frame [prepare_routes] returns *)
Record EnrichedRoute : Type := mkEnrichedRoute {
  base_route : Route;
  source : Endpoint;
  dest : Endpoint;
  route : cell
}.

Definition SourceCity (r : EnrichedRoute) : cell := EpCity (source r).
Definition SourceCountry (r : EnrichedRoute) : cell := EpCountry (source r).
Definition SourceName (r : EnrichedRoute) : cell := EpName (source r).
Definition SourceLat (r : EnrichedRoute) : cell := EpLat (source r).
Definition SourceLon (r : EnrichedRoute) : cell := EpLon (source r).
Definition DestCity (r : EnrichedRoute) : cell := EpCity (dest r).
Definition DestCountry (r : EnrichedRoute) : cell := EpCountry (dest r).
Definition DestName (r : EnrichedRoute) : cell := EpName (dest r).
Definition DestLat (r : EnrichedRoute) : cell := EpLat (dest r).
Definition DestLon (r : EnrichedRoute) : cell := EpLon (dest r).

(* Series.notna() *)
Definition notna (c : cell) : bool :=
  match c with Some _ => true | None => false end.

(* Series != scalar: NaN compares unequal to everything *)
Definition ne (c : cell) (s : string) : bool :=
  match c with Some x => negb (String.eqb x s) | None => true end.

(* Series == scalar *)
Definition eq (c : cell) (s : string) : bool :=
  match c with Some x => String.eqb x s | None => false end.

(* merge keys: equal strings match, and so do two NaN *)
Definition key_eqb (a b : cell) : bool :=
  match a, b with
  | Some x, Some y => String.eqb x y
  | None, None => true
  | _, _ => false
  end.

(* Series + str + Series on string columns: NaN if either side is NaN *)
Definition concat_cells (a : cell) (sep : string) (b : cell) : cell :=
  match a, b with
  | Some x, Some y => Some (x ++ sep ++ y)
  | _, _ => None
  end.

Definition null_sentinel : string := "\N".

(* lines 46-47 *)
Definition filter_airports (airports : list Airport) : list Airport :=
  let a := filter (fun x => notna (IATA x)) airports in
  filter (fun x => ne (IATA x) null_sentinel) a.

(* line 50 *)
Definition filter_routes (routes : list Route) : list Route :=
  filter (fun r => ne (SourceIATA r) null_sentinel &&
                   ne (DestIATA r) null_sentinel) routes.

Definition endpoint_of (a : Airport) : Endpoint :=
  mkEndpoint (City a) (Country a) (Name a) (Latitude a) (Longitude a).

Definition no_endpoint : Endpoint := mkEndpoint None None None None None.

(** [left.merge(right, left_on=..., right_on="IATA", how="left")]: every left
    row, in order, once per matching right row and once with NaN columns
    when nothing matches. *)
Definition merge_left {L O : Type} (left_on : L -> cell)
  (combine : L -> Endpoint -> O) (left : list L) (right : list Airport)
  : list O :=
  flat_map
    (fun l =>
       match filter (fun a => key_eqb (left_on l) (IATA a)) right with
       | [] => [combine l no_endpoint]
       | matches => map (fun a => combine l (endpoint_of a)) matches
       end)
    left.

(* the endpoint columns a key receives when at most one airport matches it *)
Definition lookup_endpoint (key : cell) (right : list Airport) : Endpoint :=
  match filter (fun a => key_eqb key (IATA a)) right with
  | [] => no_endpoint
  | a :: _ => endpoint_of a
  end.

Definition prepare_routes (airports : list Airport) (routes : list Route)
  : list EnrichedRoute :=
  let a := filter_airports airports in
  let r := filter_routes routes in
  let r1 := merge_left SourceIATA (fun l e => (l, e)) r a in
  let r2 :=
    merge_left (fun le => DestIATA (fst le))
               (fun le e => (fst le, snd le, e)) r1 a in
  map (fun x =>
         match x with
         | (l, s, d) =>
             mkEnrichedRoute l s d
               (concat_cells (SourceIATA l) "-" (DestIATA l))
         end) r2.

End Tables.

(** ** Route ranking (lines 122-132) *)
Module Ranker.
Import Tables.
Local Open Scope string_scope.

Record RouteCount : Type := mkRouteCount { rc_route : string; count : Z }.

(* line 124 *)
Definition filter_by_country (routes : list EnrichedRoute)
  (country_filter : string) : list EnrichedRoute :=
  if String.eqb country_filter "All" then routes
  else filter (fun r => eq (SourceCountry r) country_filter) routes.

(* strings in ascending order, as Python compares them *)
Definition slt (a b : string) : Prop := String.ltb a b = true.

(* the group keys of groupby("route"): distinct, ascending, NaN dropped *)
Fixpoint insert_key (k : string) (ks : list string) : list string :=
  match ks with
  | [] => [k]
  | k' :: rest =>
      if String.eqb k k' then ks
      else if String.ltb k k' then k :: ks
      else k' :: insert_key k rest
  end.

Fixpoint group_keys (col : list cell) : list string :=
  match col with
  | [] => []
  | None :: rest => group_keys rest
  | Some k :: rest => insert_key k (group_keys rest)
  end.

Definition group_size (col : list cell) (k : string) : Z :=
  Z.of_nat (List.length (filter (fun c => eq c k) col)).

(* groupby("route").size().reset_index(name="count") *)
Definition groupby_size (routes : list EnrichedRoute) : list RouteCount :=
  let col := map route routes in
  map (fun k => mkRouteCount k (group_size col k)) (group_keys col).

Section SortValues.

(** numpy's [argsort] with the default kind: given the keys it returns the
    positions in an order that sorts them ascending.  The default kind
    ("quicksort") makes no promise about the order of equal keys. *)
Variable argsort : list Z -> list nat.

(* pandas.core.sorting.nargsort for ascending=False and no NaN:
     items = items[::-1]; idx = idx[::-1]
     indexer = idx[items.argsort(kind)]; indexer = indexer[::-1] *)
Definition nargsort_descending (items : list Z) : list nat :=
  let idx := rev (seq 0 (List.length items)) in
  let indexer := map (fun i => nth i idx O) (argsort (rev items)) in
  rev indexer.

(* DataFrame.take(indexer) *)
Definition take (rows : list RouteCount) (indexer : list nat)
  : list RouteCount :=
  flat_map (fun i => match nth_error rows i with
                     | Some r => [r]
                     | None => []
                     end) indexer.

(* .sort_values("count", ascending=False) *)
Definition sort_values_count_descending (rows : list RouteCount)
  : list RouteCount :=
  take rows (nargsort_descending (map count rows)).

(* lines 127-132 *)
Definition route_counts (routes : list EnrichedRoute)
  (country_filter : string) : list RouteCount :=
  sort_values_count_descending
    (groupby_size (filter_by_country routes country_filter)).

End SortValues.

(** A stable argsort (insertion of each position after the equal keys already
    placed): what kind="stable" would give, and what the default gives on the
    short inputs where it falls back to insertion sort. *)
Fixpoint insert_position (keys : list Z) (i : nat) (sorted : list nat)
  : list nat :=
  match sorted with
  | [] => [i]
  | j :: rest =>
      if (nth i keys 0 <? nth j keys 0)%Z then i :: sorted
      else j :: insert_position keys i rest
  end.

Definition stable_argsort (keys : list Z) : list nat :=
  fold_left (fun acc i => insert_position keys i acc)
            (seq 0 (List.length keys)) [].

(** What is asked of [argsort] on the keys it is given: its answer lists
    each position once and reads the keys in ascending order. *)
Definition sorts_ascending (argsort : list Z -> list nat) (keys : list Z)
  : Prop :=
  Permutation (argsort keys) (seq 0 (List.length keys)) /\
  StronglySorted Z.le (map (fun i => nth i keys 0) (argsort keys)).

(* position of the first row of the table whose route is [k] *)
Fixpoint first_seen (col : list cell) (k : string) : option nat :=
  match col with
  | [] => None
  | c :: rest =>
      if eq c k then Some O
      else match first_seen rest k with
           | Some n => Some (S n)
           | None => None
           end
  end.

End Ranker.

(** ** Live flight gateway (lines 92-108) and the branch that renders its
    result (lines 178-197) *)
Module Gateway.
Import Runtime Http.
Local Open Scope string_scope.
Local Open Scope py_scope.

(* a dict as its items; lookup by key *)
Fixpoint dict_get (key : string) (fields : list (string * json))
  : option json :=
  match fields with
  | [] => None
  | (k, v) :: rest => if String.eqb k key then Some v else dict_get key rest
  end.

Definition dict_has (key : string) (fields : list (string * json)) : bool :=
  match dict_get key fields with Some _ => true | None => false end.

(* Python truthiness of a value decoded from JSON *)
Definition truthy (v : json) : bool :=
  match v with
  | JNull => false
  | JBool b => b
  | JNum n => negb (n =? 0)%Z
  | JStr s => negb (String.eqb s "")
  | JArr items => match items with [] => false | _ => true end
  | JObj fields => match fields with [] => false | _ => true end
  end.

(* [not AVIATIONSTACK_KEY]: unset or empty *)
Definition key_missing (k : option string) : bool :=
  match k with
  | None => true
  | Some s => String.eqb s ""
  end.

Definition missing_key_message : string :=
  "AVIATIONSTACK_KEY missing. Add it to .env or Streamlit Secrets.".

Definition error_dict (message : string) : json :=
  JObj [("error", JStr message)].

(** The try block of lines 103-108: either the decoded body or the text of
    the exception that was caught. *)
Definition attempt (out : outcome) : string + json :=
  match out with
  | Raised message => inl message
  | Responded status http_error body =>
      if ((400 <=? status) && (status <? 600))%Z then inl http_error
      else body
  end.

(** Everything before the return statements: [inl] carries the message of a
    failure (lines 94 and 108), [inr] the decoded response (line 106). *)
Definition fetch (origin destination : string) (limit : Z)
  : Py (string + json) :=
  key <- read_key ;;
  if key_missing key then ret (inl missing_key_message)
  else
    let req :=
      mkRequest "http://api.aviationstack.com/v1/flights"
                (match key with Some k => k | None => "" end)
                origin destination limit 10 in
    out <- requests_get req ;;
    ret (attempt out).

Definition get_live_flights (origin destination : string) (limit : Z)
  : Py json :=
  r <- fetch origin destination limit ;;
  ret (match r with
       | inl message => error_dict message
       | inr payload => payload
       end).

Definition limit_default : Z := 10.

(** What the page shows for a value returned by [get_live_flights]. *)
Inductive shown : Type :=
| StError (message : json)   (* st.error(flights["error"]) *)
| StInfo                     (* st.info("No live flights found ...") *)
| StDataframe (data : json)  (* st.dataframe(df) *)
| Uncaught.                  (* the value is not a dict: Python raises *)

Definition render (flights : json) : shown :=
  match flights with
  | JObj fields =>
      match dict_get "error" fields with
      | Some e => StError e
      | None =>
          let data := match dict_get "data" fields with
                      | Some d => d
                      | None => JArr []
                      end in
          if truthy data then StDataframe data else StInfo
      end
  | _ => Uncaught
  end.

(** A successful result with no flights: a JSON object whose "data" is the
    empty array. *)
Definition empty_success (v : json) : Prop :=
  exists fields, v = JObj fields /\ dict_get "data" fields = Some (JArr []).

End Gateway.

(** ** Words of the specification, for comparison with the code *)
Module Spec.
Local Open Scope R_scope.

(* "rounded to the nearest integer" *)
Definition nearest_integer (x : R) (n : Z) : Prop := Rabs (IZR n - x) <= 1 / 2.

(* "max(0, round(x)) as an integer" *)
Definition rounded_then_clamped (x : R) (n : Z) : Prop :=
  exists r : Z, nearest_integer x r /\ n = Z.max 0 r.

(* "for equal counts, original relative order is preserved": of two records
   with the same count the one listed first was seen first in the table *)
Definition ties_in_first_seen_order (col : list Tables.cell)
  (records : list Ranker.RouteCount) : Prop :=
  forall (i j : nat) (a b : Ranker.RouteCount),
    (i < j)%nat ->
    nth_error records i = Some a -> nth_error records j = Some b ->
    Ranker.count a = Ranker.count b ->
    exists p q : nat,
      Ranker.first_seen col (Ranker.rc_route a) = Some p /\
      Ranker.first_seen col (Ranker.rc_route b) = Some q /\
      (p < q)%nat.

End Spec.

(** ** Sample inputs on which the model is run *)
Module Samples.
Import Runtime.
Local Open Scope R_scope.

(** A generator to run the simulator on: for seed 42 its first four variates
    are 0.30471708, -1.03998411, 0.7504512 and 0.94056472; every other
    variate comes from a small formula. *)
Definition sample_normal (s : N) (i : nat) : R :=
  if (s =? 42)%N then
    match i with
    | 0%nat => 0.30471708
    | 1%nat => -1.03998411
    | 2%nat => 0.7504512
    | 3%nat => 0.94056472
    | _ => 0
    end
  else (IZR ((Z.of_N s + Z.of_nat i) mod 9) - 4) / 4.

(* 3 November 2026, noon *)
Definition sample_today : Calendar.Timestamp :=
  Calendar.mkTimestamp 2026 11 3 43200000000000.

(** A process started with PYTHONHASHSEED=[n] on an interpreter whose string
    hash is SipHash-1-3, with no API key in its environment. *)
Definition process (n : Z) : World :=
  mkWorld (PyHash.secret_of_PYTHONHASHSEED PyHash.siphash13 n)
          (fun k => N.of_nat k + 1000)%N 0
          (fun _ => sample_today) 0
          None
          (fun _ => Http.Raised "connection refused") [].

Local Open Scope string_scope.

Definition airport (id iata name city country : string) : Tables.Airport :=
  Tables.mkAirport (Some id) (Some name) (Some city) (Some country)
    (Some iata) None None None None None None None (Some "airport")
    (Some "OurAirports").

Definition flight (src dst : string) : Tables.Route :=
  Tables.mkRoute (Some "QF") None (Some src) None (Some dst) None None
    (Some "0") None.

Definition sample_airports : list Tables.Airport :=
  [ airport "3361" "SYD" "Sydney Kingsford Smith" "Sydney" "Australia";
    airport "3339" "MEL" "Melbourne" "Melbourne" "Australia";
    airport "7" "\N" "Narsarsuaq" "Narssarssuaq" "Greenland";
    airport "507" "LHR" "London Heathrow" "London" "United Kingdom";
    airport "1382" "CDG" "Charles de Gaulle" "Paris" "France" ].

(* three SYD-MEL rows, one SYD-BNE row (no BNE airport), one unusable row *)
Definition sample_routes : list Tables.Route :=
  [ flight "SYD" "MEL"; flight "SYD" "BNE"; flight "SYD" "MEL";
    flight "\N" "MEL"; flight "SYD" "MEL" ].

(* two routes flown once each *)
Definition tied_routes : list Tables.Route :=
  [ flight "SYD" "MEL"; flight "LHR" "CDG" ].

End Samples.

(** ** The rest of the script: feed clean-up (line 39) and the page
    (lines 119-183) *)
Module Page.
Import Runtime Tables Ranker Gateway.
Local Open Scope string_scope.
Local Open Scope py_scope.

(* line 39: routes.dropna(subset=["SourceIATA", "DestIATA"]) *)
Definition dropna_routes (routes : list Route) : list Route :=
  filter (fun r => notna (SourceIATA r) && notna (DestIATA r)) routes.

(* how many airports of [right] a merge key matches *)
Definition matches (key : cell) (right : list Airport) : nat :=
  List.length (filter (fun a => key_eqb key (IATA a)) right).

(* the rows one left row turns into *)
Definition joined_rows {L O : Type} (left_on : L -> cell)
  (combine : L -> Endpoint -> O) (right : list Airport) (l : L) : list O :=
  match filter (fun a => key_eqb (left_on l) (IATA a)) right with
  | [] => [combine l no_endpoint]
  | ms => map (fun a => combine l (endpoint_of a)) ms
  end.

(* Series.dropna() *)
Definition dropna (col : list cell) : list string :=
  flat_map (fun c => match c with Some s => [s] | None => [] end) col.

(* Series.unique(): the values in order of first appearance *)
Fixpoint unique (l : list string) : list string :=
  match l with
  | [] => []
  | x :: rest => x :: filter (fun y => negb (String.eqb y x)) (unique rest)
  end.

(* sorted(...): a stable ascending sort *)
Fixpoint insert_sorted (x : string) (l : list string) : list string :=
  match l with
  | [] => [x]
  | y :: rest => if String.leb x y then x :: l else y :: insert_sorted x rest
  end.

Definition sorted (l : list string) : list string :=
  fold_right insert_sorted [] l.

(* line 122: the options of the country selector *)
Definition country_options (routes : list EnrichedRoute) : list string :=
  "All" :: sorted (unique (dropna (map SourceCountry routes))).

(* DataFrame.head(n): the first n rows, or all but the last -n when n < 0 *)
Definition head {A : Type} (n : Z) (rows : list A) : list A :=
  if (0 <=? n)%Z then firstn (Z.to_nat n) rows
  else firstn (List.length rows - Z.to_nat (- n)) rows.

(* lines 135-143: the table shown and the options of the route selector *)
Definition top_routes (argsort : list Z -> list nat)
  (routes : list EnrichedRoute) (country_filter : string) (top_n : Z)
  : list RouteCount :=
  head top_n (route_counts argsort routes country_filter).

Definition route_options (argsort : list Z -> list nat)
  (routes : list EnrichedRoute) (country_filter : string) : list string :=
  map rc_route (head 200 (route_counts argsort routes country_filter)).

(** A Python value that is None, NaN or a string: what [origin] and
    [destination] can hold after lines 164-171.  [None] is Python's None,
    [Some None] a NaN cell. *)
Definition pyval : Type := option cell.

(* lines 164-171: the first row of the selected route, or None, None when
   the lookup raises *)
Definition selected_endpoints (routes : list EnrichedRoute)
  (route_selected : option string) : pyval * pyval :=
  match route_selected with
  | None => (None, None)
  | Some sel =>
      match filter (fun r => eq (route r) sel) routes with
      | [] => (None, None)
      | r :: _ => (Some (SourceIATA (base_route r)),
                   Some (DestIATA (base_route r)))
      end
  end.

(* truth value of None, NaN or a string *)
Definition pyval_truthy (v : pyval) : bool :=
  match v with
  | None => false
  | Some None => true
  | Some (Some s) => negb (String.eqb s "")
  end.

(* the text a request parameter is sent as *)
Definition pyval_text (v : pyval) : string :=
  match v with
  | Some (Some s) => s
  | Some None => "nan"
  | None => "None"
  end.

(** Lines 173-183 up to the rendering decision: [clicked] is what
    [st.button] returned; the result is what the page shows for the live
    flights, if anything. *)
Definition live_section (routes : list EnrichedRoute)
  (route_selected : option string) (clicked : bool) : Py (option shown) :=
  let od := selected_endpoints routes route_selected in
  if pyval_truthy (fst od) && pyval_truthy (snd od) then
    if clicked then
      flights <- get_live_flights (pyval_text (fst od)) (pyval_text (snd od))
                                  limit_default ;;
      ret (Some (render flights))
    else ret None
  else ret None.

(* the request of lines 96-104 for a given key *)
Definition flights_request (key origin destination : string) (limit : Z)
  : Http.Request :=
  Http.mkRequest "http://api.aviationstack.com/v1/flights" key origin
                 destination limit 10.

(* sum of the count column *)
Definition total_count (records : list RouteCount) : Z :=
  fold_right Z.add 0%Z (map count records).

End Page.

(** ** More sample inputs *)
Module MoreSamples.
Import Runtime.
Local Open Scope string_scope.

(* the sample process with an API key and a peer that answers [out] *)
Definition online (out : Http.outcome) : World :=
  let w := Samples.process 0 in
  mkWorld (hash_secret w) (os_entropy w) (entropy_drawn w)
          (wall_clock w) (clock_read w) (Some "k3y")
          (fun _ => out) (requests_sent w).

(* the network built from the sample feed after the clean-up of line 39 *)
Definition sample_network : list Tables.EnrichedRoute :=
  Tables.prepare_routes Samples.sample_airports
                        (Page.dropna_routes Samples.sample_routes).

End MoreSamples.

(** * Properties *)

(** ** The string hash agrees with the interpreter *)
Example hash_seed0 :
  PyHash.hash (PyHash.secret_of_PYTHONHASHSEED PyHash.siphash13 0) "SYD-MEL"
  = 5950965263737004884.
Proof. vm_compute. reflexivity. Qed.

Example hash_seed42 :
  PyHash.hash (PyHash.secret_of_PYTHONHASHSEED PyHash.siphash13 42) "LHR-CDG"
  = -7594186059933034215.
Proof. vm_compute. reflexivity. Qed.

Example hash_seed123 :
  PyHash.hash (PyHash.secret_of_PYTHONHASHSEED PyHash.siphash13 123) "abcdefgh12"
  = -6688085532787464193.
Proof. vm_compute. reflexivity. Qed.


(** ** Month axis *)
Section CalendarFacts.
Import Calendar.

Lemma month_end_ordinal (o ns : Z) : month_ordinal (month_end o ns) = o.
Proof.
  unfold month_ordinal, month_end; simpl.
  pose proof (Z.div_mod o 12 ltac:(lia)). lia.
Qed.

Lemma month_end_on_offset (o ns : Z) : is_on_offset (month_end o ns) = true.
Proof. unfold is_on_offset, month_end; simpl. apply Z.eqb_refl. Qed.

Lemma shift_month_spec (stamp : Timestamp) (n : Z) :
  shift_month stamp n = month_end (month_ordinal stamp + n) (nanos stamp).
Proof.
  unfold shift_month, month_end, month_ordinal.
  set (s := month stamp + n).
  assert (Hq : (year stamp * 12 + (month stamp - 1) + n) / 12
               = year stamp + (if s mod 12 =? 0 then s / 12 - 1 else s / 12)).
  { destruct (Z.eqb_spec (s mod 12) 0) as [E | E];
      subst s; Z.div_mod_to_equations; lia. }
  assert (Hr : (year stamp * 12 + (month stamp - 1) + n) mod 12 + 1
               = (if s mod 12 =? 0 then 12 else s mod 12)).
  { destruct (Z.eqb_spec (s mod 12) 0) as [E | E];
      subst s; Z.div_mod_to_equations; lia. }
  rewrite Hq, Hr. reflexivity.
Qed.

Lemma MonthEnd_apply_month_end (n o ns : Z) :
  MonthEnd_apply n (month_end o ns) = month_end (o + n) ns.
Proof.
  unfold MonthEnd_apply. rewrite shift_month_spec, month_end_ordinal.
  unfold roll_convention. cbn [day month_end year month nanos].
  rewrite Z.ltb_irrefl, andb_false_r, andb_false_r. reflexivity.
Qed.

Lemma valid_is_month_end (t : Timestamp) :
  valid t -> is_on_offset t = true ->
  t = month_end (month_ordinal t) (nanos t).
Proof.
  intros (Hm & _ & _) Hon. unfold is_on_offset in Hon.
  apply Z.eqb_eq in Hon.
  destruct t as [y m d ns]; unfold month_end, month_ordinal in *; simpl in *.
  assert (Hy : (y * 12 + (m - 1)) / 12 = y) by (Z.div_mod_to_equations; lia).
  assert (Hmo : (y * 12 + (m - 1)) mod 12 + 1 = m)
    by (Z.div_mod_to_equations; lia).
  rewrite Hy, Hmo, <- Hon. reflexivity.
Qed.

Lemma rollback_spec (today : Timestamp) :
  valid today -> rollback today = month_end (anchor today) (nanos today).
Proof.
  intros Hv. unfold rollback, anchor.
  destruct (is_on_offset today) eqn:Hon.
  - now apply valid_is_month_end.
  - unfold MonthEnd_apply. rewrite shift_month_spec.
    destruct Hv as (_ & (_ & Hd) & _).
    unfold roll_convention. simpl (0 <? -1). simpl (-1 <=? 0).
    cbn [andb].
    destruct (Z.ltb_spec (get_days_in_month (year today) (month today))
                         (day today)); [lia | reflexivity].
Qed.

Lemma month_end_ltb (o1 o2 ns : Z) :
  ltb (month_end o1 ns) (month_end o2 ns) = (o1 <? o2).
Proof.
  unfold ltb, month_end; cbn [year month day nanos].
  rewrite Z.ltb_irrefl, andb_false_r, orb_false_r.
  destruct (Z.ltb_spec o1 o2) as [H | H].
  - destruct (Z.ltb_spec (o1 / 12) (o2 / 12)) as [Hy | Hy]; [reflexivity |].
    cbn [orb].
    assert (Hyy : o1 / 12 = o2 / 12) by (Z.div_mod_to_equations; lia).
    rewrite Hyy, Z.eqb_refl. cbn [andb].
    destruct (Z.ltb_spec (o1 mod 12 + 1) (o2 mod 12 + 1)) as [Hm | Hm];
      [reflexivity |].
    exfalso. Z.div_mod_to_equations; lia.
  - destruct (Z.ltb_spec (o1 / 12) (o2 / 12)) as [Hy | Hy].
    { exfalso. Z.div_mod_to_equations; lia. }
    cbn [orb].
    destruct (Z.eqb_spec (o1 / 12) (o2 / 12)) as [Hyy | Hyy];
      [| reflexivity].
    cbn [andb].
    destruct (Z.ltb_spec (o1 mod 12 + 1) (o2 mod 12 + 1)) as [Hm | Hm].
    { exfalso. Z.div_mod_to_equations; lia. }
    cbn [orb].
    destruct (Z.eqb_spec (o1 mod 12 + 1) (o2 mod 12 + 1)) as [Hmm | Hmm];
      [| reflexivity].
    cbn [andb].
    destruct (Z.ltb_spec (get_days_in_month (o1 / 12) (o1 mod 12 + 1))
                         (get_days_in_month (o2 / 12) (o2 mod 12 + 1)))
      as [Hd | Hd]; [| reflexivity].
    exfalso. rewrite Hyy, Hmm in Hd. lia.
Qed.

Lemma month_end_eqb (o1 o2 ns : Z) :
  eqb (month_end o1 ns) (month_end o2 ns) = (o1 =? o2).
Proof.
  unfold eqb, month_end; cbn [year month day nanos].
  destruct (Z.eqb_spec o1 o2) as [H | H].
  - subst. now rewrite !Z.eqb_refl.
  - destruct (Z.eqb_spec (o1 / 12) (o2 / 12)) as [Hy | Hy]; [| reflexivity].
    destruct (Z.eqb_spec (o1 mod 12 + 1) (o2 mod 12 + 1)) as [Hm | Hm];
      [| reflexivity].
    exfalso. Z.div_mod_to_equations; lia.
Qed.

Lemma generate_loop_spec (k : nat) :
  forall (fuel : nat) (o ns : Z),
    (k < fuel)%nat ->
    generate_loop fuel (month_end o ns) (month_end (o + Z.of_nat k) ns)
    = map (fun i => month_end (o + Z.of_nat i) ns) (seq 0 (S k)).
Proof.
  induction k as [| k IH]; intros fuel o ns Hf;
    (destruct fuel as [| fuel]; [lia |]).
  - cbn [generate_loop seq map]. unfold leb.
    rewrite month_end_eqb, Z.add_0_r, Z.eqb_refl, orb_true_r.
    reflexivity.
  - cbn [generate_loop]. unfold leb.
    rewrite month_end_ltb, month_end_eqb.
    destruct (Z.ltb_spec o (o + Z.of_nat (S k))) as [_ | H]; [| lia].
    cbn [orb].
    destruct (Z.eqb_spec o (o + Z.of_nat (S k))) as [H | _]; [lia |].
    rewrite MonthEnd_apply_month_end.
    replace (o + Z.of_nat (S k)) with (o + 1 + Z.of_nat k) by lia.
    rewrite IH by lia.
    change (seq 0 (S (S k))) with (0%nat :: seq 1 (S k)).
    rewrite <- seq_shift. cbn [map]. rewrite map_map.
    rewrite Z.add_0_r. f_equal.
    apply map_ext. intros i. f_equal. lia.
Qed.

(** The axis in closed form; any fuel of at least [periods] gives it, so the
    loop always leaves through its [cur == end] exit. *)
Lemma generate_range_spec (fuel : nat) (today : Timestamp) (periods : nat) :
  valid today -> (periods <= fuel)%nat ->
  generate_range fuel today periods
  = map (fun i => month_end (anchor today - (Z.of_nat periods - 1) + Z.of_nat i)
                            (nanos today))
        (seq 0 periods).
Proof.
  intros Hv Hf. unfold generate_range.
  rewrite (rollback_spec _ Hv), MonthEnd_apply_month_end.
  destruct periods as [| k].
  - cbn [seq map]. destruct fuel as [| fuel]; [reflexivity |].
    cbn [generate_loop]. unfold leb.
    rewrite month_end_ltb, month_end_eqb.
    destruct (Z.ltb_spec (anchor today + - (Z.of_nat 0 - 1)) (anchor today));
      [lia |].
    destruct (Z.eqb_spec (anchor today + - (Z.of_nat 0 - 1)) (anchor today));
      [lia | reflexivity].
  - set (o := anchor today + - (Z.of_nat (S k) - 1)).
    replace (anchor today) with (o + Z.of_nat k) at 1 by (subst o; lia).
    rewrite generate_loop_spec by lia.
    apply map_ext. intros i. subst o. f_equal; lia.
Qed.

Lemma date_range_spec (today : Timestamp) (periods : nat) :
  valid today ->
  date_range today periods
  = map (fun i => month_end (anchor today - (Z.of_nat periods - 1) + Z.of_nat i)
                            (nanos today))
        (seq 0 periods).
Proof. intros Hv. now apply generate_range_spec. Qed.

End CalendarFacts.

(** ** Trend simulator *)
Section SimulatorFacts.
Import Runtime Simulator.
Local Open Scope R_scope.

Variable gen : N -> nat -> R.

Lemma array_add_map {A : Type} (f g : A -> R) (l : list A) :
  array_add (map f l) (map g l) = map (fun x => f x + g x) l.
Proof.
  unfold array_add. induction l as [| a l IH]; [reflexivity |].
  cbn [map combine fst snd]. now rewrite <- IH.
Qed.

Lemma scalar_add_map {A : Type} (c : R) (f : A -> R) (l : list A) :
  scalar_add c (map f l) = map (fun x => c + f x) l.
Proof. unfold scalar_add. apply map_map. Qed.

Lemma normal_fresh (loc scale : R) (size : nat) (s : N) :
  fst (normal gen loc scale size (mkGenerator s 0))
  = map (fun i => loc + scale * gen s i) (seq 0 size).
Proof. reflexivity. Qed.

Lemma price_noise_spec (months : nat) (seed : option N) (w : World) :
  result (price_noise gen months seed) w
  = map (fun i => 0 + 6 * gen (effective_seed seed w) i) (seq 0 months).
Proof. destruct seed; reflexivity. Qed.

Lemma booking_noise_spec (months : nat) (seed : option N) (w : World) :
  result (booking_noise gen months seed) w
  = map (fun i => 0 + 40 * gen (effective_seed seed w) i) (seq 0 months).
Proof. destruct seed; reflexivity. Qed.

Lemma price_spec (route : string) (months : nat) (seed : option N) (w : World) :
  price (result (simulate_price_trend gen route months seed) w)
  = map (fun t => IZR (result (price_base route) w)
                  + 15 * sin (2 * PI * INR t / 12)
                  + 0.5 * INR t
                  + (0 + 6 * gen (effective_seed seed w) t))
        (seq 0 months).
Proof.
  destruct seed; unfold simulate_price_trend, result, arange;
    cbn -[normal PyHash.hash Calendar.date_range];
    rewrite normal_fresh, scalar_add_map, !array_add_map; reflexivity.
Qed.

Lemma bookings_spec (route : string) (months : nat) (seed : option N)
  (w : World) :
  bookings (result (simulate_booking_counts gen route months seed) w)
  = map (fun t => astype_int
                    (Rmax 0 (IZR (result (booking_base route) w)
                             + 300 * (1 + 0.4 * sin (2 * PI * INR t / 12))
                             + (0 + 40 * gen (effective_seed seed w) t))))
        (seq 0 months).
Proof.
  destruct seed; unfold simulate_booking_counts, result, arange;
    cbn -[normal PyHash.hash Calendar.date_range];
    rewrite normal_fresh, scalar_add_map, !array_add_map, map_map;
    reflexivity.
Qed.

Lemma price_month_spec (route : string) (months : nat) (seed : option N)
  (w : World) :
  price_month (result (simulate_price_trend gen route months seed) w)
  = Calendar.date_range (wall_clock w (clock_read w)) months.
Proof. destruct seed; reflexivity. Qed.

Lemma bookings_month_spec (route : string) (months : nat) (seed : option N)
  (w : World) :
  bookings_month (result (simulate_booking_counts gen route months seed) w)
  = Calendar.date_range (wall_clock w (clock_read w)) months.
Proof. destruct seed; reflexivity. Qed.

(* what a call leaves behind: a clock reading, and an entropy draw without a seed *)
Lemma price_world_after (route : string) (months : nat) (seed : option N)
  (w : World) :
  let w' := world_after (simulate_price_trend gen route months seed) w in
  hash_secret w' = hash_secret w /\
  os_entropy w' = os_entropy w /\
  entropy_drawn w' = (match seed with
                      | Some _ => entropy_drawn w
                      | None => S (entropy_drawn w)
                      end) /\
  requests_sent w' = requests_sent w.
Proof. destruct seed; repeat split. Qed.

Lemma booking_world_after (route : string) (months : nat) (seed : option N)
  (w : World) :
  let w' := world_after (simulate_booking_counts gen route months seed) w in
  hash_secret w' = hash_secret w /\
  os_entropy w' = os_entropy w /\
  entropy_drawn w' = (match seed with
                      | Some _ => entropy_drawn w
                      | None => S (entropy_drawn w)
                      end) /\
  requests_sent w' = requests_sent w.
Proof. destruct seed; repeat split. Qed.

Lemma base_same_process (route : string) (w w' : World) :
  hash_secret w' = hash_secret w ->
  result (price_base route) w' = result (price_base route) w /\
  result (booking_base route) w' = result (booking_base route) w.
Proof.
  intros H. unfold result, price_base, booking_base, bind, builtin_hash, ret.
  cbn [fst]. now rewrite H.
Qed.

(** With an explicit seed the values of both series depend on the world only
    through the hash secret of the process. *)
Lemma seeded_values_same_process (route : string) (months : nat) (s : N)
  (w w' : World) :
  hash_secret w' = hash_secret w ->
  price (result (simulate_price_trend gen route months (Some s)) w')
  = price (result (simulate_price_trend gen route months (Some s)) w) /\
  bookings (result (simulate_booking_counts gen route months (Some s)) w')
  = bookings (result (simulate_booking_counts gen route months (Some s)) w).
Proof.
  intros H. rewrite !price_spec, !bookings_spec.
  destruct (base_same_process route w w' H) as [Hp Hb].
  rewrite Hp, Hb. split; reflexivity.
Qed.

End SimulatorFacts.

Section SimulatorClaims.
Import Runtime Simulator.
Local Open Scope R_scope.

Lemma simulate_result (gen : N -> nat -> R) (route : string) (months : nat)
  (seed : option N) (w : World) :
  result (simulate gen route months seed) w
  = (result (simulate_price_trend gen route months seed) w,
     result (simulate_booking_counts gen route months seed)
            (world_after (simulate_price_trend gen route months seed) w)).
Proof. destruct seed; reflexivity. Qed.

Lemma simulate_world_after (gen : N -> nat -> R) (route : string)
  (months : nat) (seed : option N) (w : World) :
  world_after (simulate gen route months seed) w
  = world_after (simulate_booking_counts gen route months seed)
      (world_after (simulate_price_trend gen route months seed) w).
Proof. destruct seed; reflexivity. Qed.

Lemma simulate_keeps_secret (gen : N -> nat -> R) (route : string)
  (months : nat) (seed : option N) (w : World) :
  hash_secret (world_after (simulate gen route months seed) w) = hash_secret w.
Proof. destruct seed; reflexivity. Qed.

(** C1: for every route identifier, months value and explicit seed, calling
    the simulator a second time with the same arguments gives the same price
    series and the same booking series as the first call, element for
    element. *)
Theorem C1_repeated_call_same_series :
  forall (gen : N -> nat -> R) (route : string) (months : nat) (seed : N)
         (w : World),
    let call := simulate gen route months (Some seed) in
    let first := result call w in
    let second := result call (world_after call w) in
    price (fst first) = price (fst second) /\
    bookings (snd first) = bookings (snd second) /\
    (forall t : nat,
        nth t (price (fst first)) 0 = nth t (price (fst second)) 0) /\
    (forall t : nat,
        nth t (bookings (snd first)) 0%Z = nth t (bookings (snd second)) 0%Z).
Proof.
  intros gen route months seed w call first second.
  assert (Hp : price (fst first) = price (fst second)).
  { subst first second call. rewrite !simulate_result. cbn [fst].
    symmetry.
    apply (seeded_values_same_process gen route months seed w).
    apply simulate_keeps_secret. }
  assert (Hb : bookings (snd first) = bookings (snd second)).
  { subst first second call. rewrite !simulate_result. cbn [snd].
    transitivity
      (bookings (result (simulate_booking_counts gen route months (Some seed)) w)).
    - apply (seeded_values_same_process gen route months seed w). reflexivity.
    - symmetry.
      apply (seeded_values_same_process gen route months seed w). reflexivity. }
  split; [exact Hp |]. split; [exact Hb |].
  split; intros t; [now rewrite Hp | now rewrite Hb].
Qed.

(** C2: the baseline the code computes is 100 + (hash(route) mod 50) with the
    interpreter's keyed string hash; evaluated for "SYD-MEL" in two processes
    (PYTHONHASHSEED 1 and 2) it gives two different baselines. *)
Theorem C2_baseline_differs_between_processes :
  (forall (route : string) (w : World),
      result (price_base route) w
      = (100 + PyHash.hash (hash_secret w) route mod 50)%Z) /\
  result (price_base "SYD-MEL") (Samples.process 1) = 134%Z /\
  result (price_base "SYD-MEL") (Samples.process 2) = 149%Z.
Proof.
  split; [reflexivity |]. split; vm_compute; reflexivity.
Qed.

(** C3 (as amended): for two routes simulated with the same months and seed,
    the noise is the same at every index: once each route's own baseline is
    subtracted the two price series coincide, and each baseline is
    100 + (hash(route) mod 50), between 100 and 149. *)
Theorem C3_same_noise_for_every_route :
  forall (gen : N -> nat -> R) (routeA routeB : string) (months : nat)
         (seed : N) (w : World),
    let w' := world_after (simulate_price_trend gen routeA months (Some seed)) w in
    let pa := result (simulate_price_trend gen routeA months (Some seed)) w in
    let pb := result (simulate_price_trend gen routeB months (Some seed)) w' in
    let baseA := result (price_base routeA) w in
    let baseB := result (price_base routeB) w' in
    map (fun p => p - IZR baseA) (price pa)
    = map (fun p => p - IZR baseB) (price pb) /\
    result (price_noise gen months (Some seed)) w
    = result (price_noise gen months (Some seed)) w' /\
    baseA = (100 + PyHash.hash (hash_secret w) routeA mod 50)%Z /\
    baseB = (100 + PyHash.hash (hash_secret w) routeB mod 50)%Z /\
    (100 <= baseA < 150)%Z /\ (100 <= baseB < 150)%Z.
Proof.
  intros gen routeA routeB months seed w w' pa pb baseA baseB.
  subst pa pb. rewrite !price_spec, !map_map. fold baseA baseB.
  split; [| split; [| split; [| split]]].
  - apply map_ext. intros t. cbn [effective_seed]. ring.
  - reflexivity.
  - reflexivity.
  - reflexivity.
  - assert (HA : baseA = (100 + PyHash.hash (hash_secret w) routeA mod 50)%Z)
      by reflexivity.
    assert (HB : baseB = (100 + PyHash.hash (hash_secret w) routeB mod 50)%Z)
      by reflexivity.
    pose proof (Z.mod_pos_bound (PyHash.hash (hash_secret w) routeA) 50
                  ltac:(lia)).
    pose proof (Z.mod_pos_bound (PyHash.hash (hash_secret w) routeB) 50
                  ltac:(lia)).
    lia.
Qed.

(** C3, where the claim fails: in a process started with PYTHONHASHSEED=18 the
    distinct routes "SYD-MEL" and "LHR-CDG" get the same baseline, 119, and
    so the same price series. *)
Lemma C3_equal_baselines_counterexample :
  "SYD-MEL"%string <> "LHR-CDG"%string /\
  result (price_base "SYD-MEL") (Samples.process 18) = 119%Z /\
  result (price_base "LHR-CDG") (Samples.process 18) = 119%Z /\
  price (result (simulate_price_trend Samples.sample_normal "SYD-MEL" 36 (Some 42%N))
                (Samples.process 18))
  = price (result (simulate_price_trend Samples.sample_normal "LHR-CDG" 36 (Some 42%N))
                  (Samples.process 18)).
Proof.
  assert (HA : result (price_base "SYD-MEL") (Samples.process 18) = 119%Z)
    by (vm_compute; reflexivity).
  assert (HB : result (price_base "LHR-CDG") (Samples.process 18) = 119%Z)
    by (vm_compute; reflexivity).
  split; [discriminate |]. split; [exact HA |]. split; [exact HB |].
  rewrite !price_spec, HA, HB. reflexivity.
Qed.

End SimulatorClaims.

Section BookingClaims.
Import Runtime Simulator.
Local Open Scope R_scope.

Lemma astype_int_nonneg (x : R) : 0 <= x -> astype_int x = Zfloor x.
Proof.
  intros H. unfold astype_int. destruct (Rle_dec 0 x); [reflexivity | lra].
Qed.

Lemma astype_int_clamped (x : R) :
  astype_int (Rmax 0 x) = Zfloor (Rmax 0 x) /\ (0 <= astype_int (Rmax 0 x))%Z.
Proof.
  pose proof (Rmax_l 0 x) as H.
  rewrite (astype_int_nonneg _ H). split; [reflexivity |].
  apply Zfloor_lub. exact H.
Qed.

Lemma booking_base_range (route : string) (w : World) :
  result (booking_base route) w
  = (500 + PyHash.hash (hash_secret w) route mod 200)%Z /\
  (500 <= result (booking_base route) w < 700)%Z.
Proof.
  split; [reflexivity |].
  change (result (booking_base route) w)
    with (500 + PyHash.hash (hash_secret w) route mod 200)%Z.
  pose proof (Z.mod_pos_bound (PyHash.hash (hash_secret w) route) 200
                ltac:(lia)).
  lia.
Qed.

(** C6 (as amended): for every route, months and seed, each booking value is
    the seasonal-plus-noise value base2 + 300(1 + 0.4 sin(2 pi t / 12)) +
    noise2[t], clamped at zero and then truncated to an integer (its floor,
    not the nearest integer), where base2 is 500 + (hash(route) mod 200) and
    noise2[t] is 40 times the t-th standard-normal variate; every booking
    value is a non-negative integer. *)
Theorem C6_bookings_clamped_then_truncated :
  forall (gen : N -> nat -> R) (route : string) (months : nat)
         (seed : option N) (w : World),
    let base2 := result (booking_base route) w in
    let noise2 := fun t : nat => 40 * gen (effective_seed seed w) t in
    let bf := result (simulate_booking_counts gen route months seed) w in
    base2 = (500 + PyHash.hash (hash_secret w) route mod 200)%Z /\
    bookings bf
    = map (fun t : nat =>
             Zfloor (Rmax 0 (IZR base2
                             + 300 * (1 + 0.4 * sin (2 * PI * INR t / 12))
                             + noise2 t)))
          (seq 0 months) /\
    Forall (fun b : Z => (0 <= b)%Z) (bookings bf).
Proof.
  intros gen route months seed w base2 noise2 bf.
  split; [reflexivity |].
  subst bf. rewrite bookings_spec. fold base2. split.
  - apply map_ext. intros t. subst noise2. cbv beta.
    rewrite Rplus_0_l. apply astype_int_clamped.
  - apply Forall_forall. intros b Hb. apply in_map_iff in Hb.
    destruct Hb as (t & <- & _). apply astype_int_clamped.
Qed.

Lemma sin_quarter_year : sin (2 * PI * INR 3 / 12) = 1.
Proof.
  replace (2 * PI * INR 3 / 12) with (PI / 2) by (simpl; field).
  apply sin_PI2.
Qed.

(** C6, where the claim fails: seed 42, month index 3.  The value before
    conversion is 584 + 420 + 40 * 0.94056472 = 1041.62...; the code stores
    1041, which is not that value rounded to the nearest integer. *)
Lemma C6_truncation_counterexample :
  let bf := result (simulate_booking_counts Samples.sample_normal
                      "SYD-MEL" 36 (Some 42%N)) (Samples.process 0) in
  let x := IZR (result (booking_base "SYD-MEL") (Samples.process 0))
           + 300 * (1 + 0.4 * sin (2 * PI * INR 3 / 12))
           + 40 * Samples.sample_normal 42 3 in
  nth 3 (bookings bf) 0%Z = 1041%Z /\
  ~ Spec.rounded_then_clamped x (nth 3 (bookings bf) 0%Z).
Proof.
  intros bf x.
  assert (Hbase : result (booking_base "SYD-MEL") (Samples.process 0) = 584%Z)
    by (vm_compute; reflexivity).
  assert (Hx : x = 1041.6225888).
  { subst x. rewrite Hbase, sin_quarter_year.
    unfold Samples.sample_normal. cbn [N.eqb Pos.eqb]. lra. }
  assert (Hn : nth 3 (bookings bf) 0%Z = 1041%Z).
  { subst bf. rewrite bookings_spec. cbn [seq map nth effective_seed].
    rewrite Rplus_0_l. fold x. rewrite Hx.
    rewrite Rmax_right by lra. rewrite astype_int_nonneg by lra.
    apply Zfloor_eq. lra. }
  split; [exact Hn |].
  rewrite Hn, Hx. intros (r & Hr & Hmax).
  unfold Spec.nearest_integer in Hr.
  assert (r = 1041%Z) by lia. subst r.
  rewrite Rabs_left in Hr by lra. lra.
Qed.

(** C7 (as amended): the two noise arrays are the same standard-normal
    variates under two scales.  Prices are base + season + trend + noise and
    bookings are the clamped, truncated base2 + season2 + noise2, where under
    one seed noise2 = (20/3) * noise at every index: the booking noise is a
    fixed scalar multiple of the price noise, not an independent stream. *)
Theorem C7_booking_noise_scales_price_noise :
  forall (gen : N -> nat -> R) (route : string) (months : nat) (seed : N)
         (w w' : World),
    let noise := result (price_noise gen months (Some seed)) w in
    let noise2 := result (booking_noise gen months (Some seed)) w' in
    noise2 = map (fun x => 20 / 3 * x) noise /\
    price (result (simulate_price_trend gen route months (Some seed)) w)
    = array_add
        (map (fun t => IZR (result (price_base route) w)
                       + 15 * sin (2 * PI * INR t / 12) + 0.5 * INR t)
             (seq 0 months))
        noise /\
    bookings (result (simulate_booking_counts gen route months (Some seed)) w')
    = map (fun x => astype_int (Rmax 0 x))
          (array_add
             (map (fun t => IZR (result (booking_base route) w')
                            + 300 * (1 + 0.4 * sin (2 * PI * INR t / 12)))
                  (seq 0 months))
             noise2).
Proof.
  intros gen route months seed w w' noise noise2. subst noise noise2.
  rewrite price_noise_spec, booking_noise_spec, price_spec, bookings_spec.
  rewrite !array_add_map, !map_map. cbn [effective_seed].
  split; [| split]; try reflexivity.
  apply map_ext. intros t. field.
Qed.

(** C7, where the claim fails: at seed 42 and 36 months the booking noise is
    the price noise times 20/3 at every index; at index 0 the two draws are
    1.82830248 and 12.1886832. *)
Lemma C7_scalar_multiple_counterexample :
  let noise := result (price_noise Samples.sample_normal 36 (Some 42%N))
                      (Samples.process 0) in
  let noise2 := result (booking_noise Samples.sample_normal 36 (Some 42%N))
                       (Samples.process 0) in
  noise2 = map (fun x => 20 / 3 * x) noise /\
  nth 0 noise 0 = 1.82830248 /\
  nth 0 noise2 0 = 12.1886832.
Proof.
  intros noise noise2. subst noise noise2.
  rewrite price_noise_spec, booking_noise_spec, map_map.
  split; [apply map_ext; intros t; field |].
  cbn [seq map nth effective_seed]. unfold Samples.sample_normal.
  cbn [N.eqb Pos.eqb]. split; lra.
Qed.

End BookingClaims.

Section SeedAndAxisClaims.
Import Runtime Simulator.
Local Open Scope R_scope.

Lemma sin_month_zero : sin (2 * PI * INR 0 / 12) = 0.
Proof.
  replace (2 * PI * INR 0 / 12) with 0 by (simpl; field).
  apply sin_0.
Qed.

(** C10: the simulator functions default months to 24 and seed to None; a
    call without a seed draws one value of fresh OS entropy and behaves as if
    seeded with it, so two calls with the same route and months can differ
    (here they do, in both series), while two calls with one explicit seed
    agree. *)
Theorem C10_no_seed_draws_fresh_entropy :
  (months_default = 24%nat /\ seed_default = None) /\
  (forall (gen : N -> nat -> R) (route : string),
      simulate_price_trend_defaults gen route
      = simulate_price_trend gen route 24 None /\
      simulate_booking_counts_defaults gen route
      = simulate_booking_counts gen route 24 None) /\
  (forall (gen : N -> nat -> R) (route : string) (months : nat) (w : World),
      let e := os_entropy w (entropy_drawn w) in
      price (result (simulate_price_trend gen route months None) w)
      = price (result (simulate_price_trend gen route months (Some e)) w) /\
      bookings (result (simulate_booking_counts gen route months None) w)
      = bookings (result (simulate_booking_counts gen route months (Some e)) w) /\
      entropy_drawn (world_after (simulate_price_trend gen route months None) w)
      = S (entropy_drawn w) /\
      entropy_drawn (world_after (simulate_booking_counts gen route months None) w)
      = S (entropy_drawn w)) /\
  (exists (gen : N -> nat -> R) (route : string) (months : nat) (w : World),
      let call := simulate gen route months None in
      price (fst (result call w))
      <> price (fst (result call (world_after call w))) /\
      bookings (snd (result call w))
      <> bookings (snd (result call (world_after call w)))) /\
  (forall (gen : N -> nat -> R) (route : string) (months : nat) (seed : N)
          (w : World),
      let call := simulate gen route months (Some seed) in
      price (fst (result call w))
      = price (fst (result call (world_after call w))) /\
      bookings (snd (result call w))
      = bookings (snd (result call (world_after call w)))).
Proof.
  split; [split; reflexivity |].
  split; [intros; split; reflexivity |].
  split.
  { intros gen route months w e.
    rewrite !price_spec, !bookings_spec. repeat split. }
  split.
  - exists Samples.sample_normal, "SYD-MEL"%string, 1%nat, (Samples.process 0).
    intros call. subst call.
    rewrite !simulate_result, !simulate_world_after. cbn [fst snd].
    rewrite !price_spec, !bookings_spec.
    assert (Hb : forall w, hash_secret w = hash_secret (Samples.process 0) ->
                 result (booking_base "SYD-MEL") w = 584%Z).
    { intros w Hw. unfold result, booking_base, bind, builtin_hash, ret.
      cbn [fst]. rewrite Hw. vm_compute. reflexivity. }
    assert (Hp : forall w, hash_secret w = hash_secret (Samples.process 0) ->
                 result (price_base "SYD-MEL") w = 134%Z).
    { intros w Hw. unfold result, price_base, bind, builtin_hash, ret.
      cbn [fst]. rewrite Hw. vm_compute. reflexivity. }
    rewrite !Hb, !Hp by reflexivity.
    cbn [seq map effective_seed].
    change (os_entropy _ _) with 1000%N at 1.
    change (os_entropy _ _) with 1002%N at 1.
    change (os_entropy _ _) with 1001%N at 1.
    change (os_entropy _ _) with 1003%N at 1.
    unfold Samples.sample_normal. cbn [N.eqb Pos.eqb].
    change ((Z.of_N 1000 + Z.of_nat 0) mod 9)%Z with 1%Z.
    change ((Z.of_N 1001 + Z.of_nat 0) mod 9)%Z with 2%Z.
    change ((Z.of_N 1002 + Z.of_nat 0) mod 9)%Z with 3%Z.
    change ((Z.of_N 1003 + Z.of_nat 0) mod 9)%Z with 4%Z.
    rewrite sin_month_zero. split.
    + intros H. injection H as H. lra.
    + replace (584 + 300 * (1 + 0.4 * 0) + (0 + 40 * ((2 - 4) / 4)))
        with 864 by lra.
      replace (584 + 300 * (1 + 0.4 * 0) + (0 + 40 * ((4 - 4) / 4)))
        with 884 by lra.
      rewrite !Rmax_right by lra.
      rewrite !astype_int_nonneg by lra.
      rewrite (Zfloor_eq 864 864) by lra.
      rewrite (Zfloor_eq 884 884) by lra.
      discriminate.
  - intros gen route months seed w call. subst call.
    rewrite !simulate_result. cbn [fst snd]. split.
    + symmetry.
      apply (seeded_values_same_process gen route months seed w).
      apply simulate_keeps_secret.
    + transitivity
        (bookings (result (simulate_booking_counts gen route months (Some seed)) w)).
      * apply (seeded_values_same_process gen route months seed w).
        reflexivity.
      * symmetry.
        apply (seeded_values_same_process gen route months seed w).
        reflexivity.
Qed.

Lemma nth_map_seq {A : Type} (f : nat -> A) (n i : nat) (d : A) :
  (i < n)%nat -> nth i (map f (seq 0 n)) d = f i.
Proof.
  intros H. rewrite (nth_indep _ d (f 0%nat)) by now rewrite length_map, length_seq.
  rewrite map_nth, seq_nth by exact H. reflexivity.
Qed.

Lemma last_map_seq {A : Type} (f : nat -> A) (k : nat) (d : A) :
  last (map f (seq 0 (S k))) d = f k.
Proof. rewrite seq_S, map_app. cbn [map]. apply last_last. Qed.

(** C8 (as amended): both series and their month columns have exactly
    [months] entries; the timestamps are the last days of consecutive
    calendar months (one per month, strictly increasing, each keeping the
    time of day of the clock reading); and the last one is the latest month
    end not after today: today itself on the last day of a month, otherwise
    the last day of the previous month. *)
Theorem C8_month_axis :
  forall (gen : N -> nat -> R) (route : string) (months : nat)
         (seed : option N) (w : World),
    let today := wall_clock w (clock_read w) in
    Calendar.valid today ->
    let pf := result (simulate_price_trend gen route months seed) w in
    let bf := result (simulate_booking_counts gen route months seed) w in
    let axis := price_month pf in
    (List.length (price pf) = months /\ List.length axis = months /\
     List.length (bookings bf) = months /\ bookings_month bf = axis) /\
    (forall i j : nat, (i < j < months)%nat ->
        Calendar.ltb (nth i axis today) (nth j axis today) = true) /\
    (forall i : nat, (i < months)%nat ->
        Calendar.is_on_offset (nth i axis today) = true /\
        Calendar.nanos (nth i axis today) = Calendar.nanos today /\
        Calendar.month_ordinal (nth i axis today)
        = (Calendar.anchor today - (Z.of_nat months - 1) + Z.of_nat i)%Z) /\
    ((0 < months)%nat -> last axis today = Calendar.rollback today) /\
    (Calendar.is_on_offset today = true -> Calendar.rollback today = today) /\
    (Calendar.is_on_offset today = false ->
        Calendar.month_ordinal (Calendar.rollback today)
        = (Calendar.month_ordinal today - 1)%Z /\
        Calendar.is_on_offset (Calendar.rollback today) = true).
Proof.
  intros gen route months seed w today Hv pf bf axis.
  assert (Haxis : axis
                  = map (fun i => Calendar.month_end
                                    (Calendar.anchor today
                                     - (Z.of_nat months - 1) + Z.of_nat i)
                                    (Calendar.nanos today))
                        (seq 0 months)).
  { subst axis pf. rewrite price_month_spec. now apply date_range_spec. }
  split; [| split; [| split; [| split; [| split]]]].
  - subst pf bf. repeat split.
    + now rewrite price_spec, length_map, length_seq.
    + now rewrite Haxis, length_map, length_seq.
    + now rewrite bookings_spec, length_map, length_seq.
    + subst axis. now rewrite bookings_month_spec, price_month_spec.
  - intros i j Hij. rewrite Haxis, !nth_map_seq by lia.
    rewrite month_end_ltb. apply Z.ltb_lt. lia.
  - intros i Hi. rewrite Haxis, nth_map_seq by lia.
    rewrite month_end_on_offset, month_end_ordinal. repeat split.
  - intros Hm. rewrite Haxis. destruct months as [| k]; [lia |].
    rewrite last_map_seq, (rollback_spec _ Hv). f_equal. lia.
  - intros Hon. unfold Calendar.rollback. now rewrite Hon.
  - intros Hoff. rewrite (rollback_spec _ Hv).
    rewrite month_end_ordinal, month_end_on_offset.
    unfold Calendar.anchor. rewrite Hoff. split; reflexivity.
Qed.

(** C8, a run to which the theorem applies: 36 months on 3 November 2026. *)
Lemma C8_month_axis_witness :
  Calendar.valid (wall_clock (Samples.process 0) (clock_read (Samples.process 0))) /\
  List.length (price_month
            (result (simulate_price_trend Samples.sample_normal "SYD-MEL" 36
                       (Some 42%N)) (Samples.process 0))) = 36%nat.
Proof.
  assert (Hv : Calendar.valid
                 (wall_clock (Samples.process 0)
                             (clock_read (Samples.process 0)))).
  { unfold Calendar.valid. cbn. lia. }
  split; [exact Hv |].
  exact (proj1 (proj2 (proj1
    (C8_month_axis Samples.sample_normal "SYD-MEL" 36 (Some 42%N)
                   (Samples.process 0) Hv)))).
Defined.

(** C8, where the claim fails: generated on 3 November 2026 the axis ends on
    31 October 2026, a month before the current one. *)
Lemma C8_last_month_counterexample :
  let w := Samples.process 0 in
  let today := wall_clock w (clock_read w) in
  let axis := price_month
                (result (simulate_price_trend Samples.sample_normal "SYD-MEL"
                           36 (Some 42%N)) w) in
  today = Calendar.mkTimestamp 2026 11 3 43200000000000 /\
  last axis today = Calendar.mkTimestamp 2026 10 31 43200000000000 /\
  Calendar.month (last axis today) <> Calendar.month today.
Proof.
  intros w today axis.
  assert (Hl : last axis today
               = Calendar.mkTimestamp 2026 10 31 43200000000000).
  { subst axis. rewrite price_month_spec. vm_compute. reflexivity. }
  split; [reflexivity |]. split; [exact Hl |].
  rewrite Hl. cbn. lia.
Qed.

End SeedAndAxisClaims.

(** ** Route network builder *)
Section TablesFacts.
Import Tables.

Lemma key_eqb_eq (a b : cell) : key_eqb a b = true <-> a = b.
Proof.
  destruct a as [x |], b as [y |]; cbn; split; intros H;
    try discriminate; try reflexivity.
  - apply String.eqb_eq in H. now subst.
  - injection H as ->. apply String.eqb_refl.
Qed.

(* unique keys on the right: a key matches at most one airport *)
Lemma unique_match (key : cell) (right : list Airport) :
  NoDup (map IATA right) ->
  (List.length (filter (fun a => key_eqb key (IATA a)) right) <= 1)%nat.
Proof.
  induction right as [| a right IH]; intros Hnd; [cbn; lia |].
  cbn [map] in Hnd. inversion Hnd as [| x l Hnotin Hnd' E]; subst.
  cbn [filter]. destruct (key_eqb key (IATA a)) eqn:Hk.
  - apply key_eqb_eq in Hk. subst key.
    assert (Hnone : filter (fun a0 => key_eqb (IATA a) (IATA a0)) right = []).
    { clear IH Hnd Hnd'. induction right as [| b right IHr]; [reflexivity |].
      cbn [filter]. destruct (key_eqb (IATA a) (IATA b)) eqn:Hb.
      - apply key_eqb_eq in Hb. exfalso. apply Hnotin. cbn [map].
        left. now symmetry.
      - apply IHr. intros Hin. apply Hnotin. now right. }
    rewrite Hnone. cbn. lia.
  - now apply IH.
Qed.

Lemma merge_left_unique {L O : Type} (left_on : L -> cell)
  (combine : L -> Endpoint -> O) (left : list L) (right : list Airport) :
  NoDup (map IATA right) ->
  merge_left left_on combine left right
  = map (fun l => combine l (lookup_endpoint (left_on l) right)) left.
Proof.
  intros Hnd. unfold merge_left.
  induction left as [| l left IH]; [reflexivity |].
  cbn [flat_map]. rewrite IH. cbn [map]. unfold lookup_endpoint.
  pose proof (unique_match (left_on l) right Hnd) as Hlen.
  destruct (filter (fun a => key_eqb (left_on l) (IATA a)) right)
    as [| a [| b rest]]; cbn in Hlen |- *; try reflexivity; lia.
Qed.

Lemma prepare_routes_unique (airports : list Airport) (routes : list Route) :
  NoDup (map IATA (filter_airports airports)) ->
  prepare_routes airports routes
  = map (fun l =>
           mkEnrichedRoute l
             (lookup_endpoint (SourceIATA l) (filter_airports airports))
             (lookup_endpoint (DestIATA l) (filter_airports airports))
             (concat_cells (SourceIATA l) "-" (DestIATA l)))
        (filter_routes routes).
Proof.
  intros Hnd. unfold prepare_routes.
  rewrite !(merge_left_unique _ _ _ _ Hnd), !map_map. reflexivity.
Qed.

(** C5: when the IATA codes of the filtered airports are pairwise distinct,
    the builder returns exactly one row per filtered route row, in the same
    order: the two left joins neither duplicate nor drop a route. *)
Theorem C5_joins_keep_row_count :
  forall (airports : list Airport) (routes : list Route),
    NoDup (map IATA (filter_airports airports)) ->
    List.length (prepare_routes airports routes)
    = List.length (filter_routes routes) /\
    map base_route (prepare_routes airports routes) = filter_routes routes.
Proof.
  intros airports routes Hnd.
  rewrite (prepare_routes_unique _ _ Hnd), length_map, map_map.
  split; [reflexivity |]. cbn [base_route]. apply map_id.
Qed.

Lemma sample_airports_unique :
  NoDup (map IATA (filter_airports Samples.sample_airports)).
Proof.
  cbv. repeat constructor; cbn; intuition discriminate.
Qed.

(** C5 on the sample feed: four airports with distinct codes, four usable
    route rows in, four rows out. *)
Lemma C5_joins_keep_row_count_witness :
  NoDup (map IATA (filter_airports Samples.sample_airports)) /\
  List.length (prepare_routes Samples.sample_airports Samples.sample_routes)
  = 4%nat.
Proof.
  split; [exact sample_airports_unique |].
  rewrite (proj1 (C5_joins_keep_row_count Samples.sample_airports
                    Samples.sample_routes sample_airports_unique)).
  reflexivity.
Defined.

End TablesFacts.

(** ** Live flight gateway *)
Section GatewayFacts.
Import Runtime Http Gateway.
Local Open Scope string_scope.

Lemma error_dict_not_empty_success (message : string) (s : json) :
  empty_success s -> error_dict message <> s.
Proof.
  intros (fields & -> & Hdata) Heq. unfold error_dict in Heq.
  injection Heq as <-. cbn in Hdata. discriminate.
Qed.

Lemma render_error_dict (message : string) :
  render (error_dict message) = StError (JStr message).
Proof. reflexivity. Qed.

Lemma render_empty_success (fields : list (string * json)) :
  dict_has "error" fields = false ->
  dict_get "data" fields = Some (JArr []) ->
  render (JObj fields) = StInfo.
Proof.
  intros He Hd. unfold render, dict_has in *.
  destruct (dict_get "error" fields); [discriminate |].
  now rewrite Hd.
Qed.

(** C9: with the credential missing (unset or empty) the gateway returns the
    failure value and leaves the world as it was, so no HTTP request is sent;
    and whenever it returns a failure, that value is the dict
    {"error": message}, differs from every successful result whose data array
    is empty, and is rendered as an error where such a result (one without an
    "error" member) is rendered as the "no flights" notice. *)
Theorem C9_failure_distinct_from_empty_success :
  forall (origin destination : string) (limit : Z) (w : World),
    (key_missing (AVIATIONSTACK_KEY w) = true ->
     run (get_live_flights origin destination limit) w
     = (error_dict missing_key_message, w)) /\
    (forall message : string,
        result (fetch origin destination limit) w = inl message ->
        let v := result (get_live_flights origin destination limit) w in
        v = error_dict message /\
        (forall s : json, empty_success s -> v <> s) /\
        render v = StError (JStr message) /\
        (forall fields : list (string * json),
            dict_has "error" fields = false ->
            dict_get "data" fields = Some (JArr []) ->
            render (JObj fields) = StInfo /\
            render v <> render (JObj fields))).
Proof.
  intros origin destination limit w. split.
  - intros Hk. unfold run, get_live_flights, fetch, bind, read_key, ret.
    now rewrite Hk.
  - intros message Hf v.
    assert (Hv : v = error_dict message).
    { subst v. unfold result, get_live_flights, bind in *.
      destruct (fetch origin destination limit w) as [r w'].
      cbn [fst] in Hf. subst r. reflexivity. }
    rewrite Hv. split; [reflexivity |].
    split; [intros s Hs; now apply error_dict_not_empty_success |].
    split; [apply render_error_dict |].
    intros fields He Hd.
    rewrite (render_empty_success fields He Hd), render_error_dict.
    split; [reflexivity | discriminate].
Qed.

(** C9 in a process without the credential: the request for SYD to MEL fails
    at once, nothing is sent, and the value is not the empty result. *)
Lemma C9_failure_distinct_from_empty_success_witness :
  key_missing (AVIATIONSTACK_KEY (Samples.process 0)) = true /\
  result (fetch "SYD" "MEL" 10) (Samples.process 0)
  = inl missing_key_message /\
  requests_sent
    (world_after (get_live_flights "SYD" "MEL" 10) (Samples.process 0)) = [] /\
  result (get_live_flights "SYD" "MEL" 10) (Samples.process 0)
  <> JObj [("data", JArr [])].
Proof.
  pose proof (C9_failure_distinct_from_empty_success
                "SYD" "MEL" 10 (Samples.process 0)) as [Hmiss Hfail].
  specialize (Hmiss eq_refl).
  specialize (Hfail missing_key_message eq_refl).
  destruct Hfail as (_ & Hne & _).
  split; [reflexivity |]. split; [reflexivity |]. split.
  - unfold world_after. unfold run in Hmiss. now rewrite Hmiss.
  - apply Hne. exists [("data", JArr [])]. split; reflexivity.
Defined.

End GatewayFacts.

(** ** Route ranker *)
Section StringOrder.
Import Ranker.

Lemma compare_as_OT (a b : string) :
  String.compare a b = String_as_OT.compare a b.
Proof.
  revert b. induction a as [| c a IH]; intros [| d b]; reflexivity.
Qed.

Lemma slt_compare (a b : string) : slt a b <-> String.compare a b = Lt.
Proof.
  unfold slt, String.ltb. destruct (String.compare a b); split;
    intros H; try reflexivity; discriminate.
Qed.

Lemma slt_trans (a b c : string) : slt a b -> slt b c -> slt a c.
Proof.
  rewrite !slt_compare, !compare_as_OT. intros H1 H2.
  exact (@StrictOrder_Transitive _ _ String_as_OT.lt_strorder a b c H1 H2).
Qed.

Lemma slt_irrefl (a : string) : ~ slt a a.
Proof.
  rewrite slt_compare, compare_as_OT.
  exact (@StrictOrder_Irreflexive _ _ String_as_OT.lt_strorder a).
Qed.

Lemma slt_total (a b : string) :
  String.eqb a b = false -> String.ltb a b = false -> slt b a.
Proof.
  intros Hne Hlt. apply slt_compare. unfold String.ltb in Hlt.
  rewrite String.compare_antisym.
  destruct (String.compare a b) eqn:Hc; try discriminate; try reflexivity.
  apply String.compare_eq_iff in Hc. subst.
  rewrite String.eqb_refl in Hne. discriminate.
Qed.

End StringOrder.

Section GroupingFacts.
Import Tables Ranker.

Lemma eq_cell_true (c : cell) (k : string) : eq c k = true <-> c = Some k.
Proof.
  destruct c as [x |]; cbn; split; intros H; try discriminate.
  - apply String.eqb_eq in H. now subst.
  - injection H as ->. apply String.eqb_refl.
Qed.

Lemma insert_key_In (x k : string) (ks : list string) :
  In x (insert_key k ks) <-> x = k \/ In x ks.
Proof.
  induction ks as [| k' ks IH]; cbn [insert_key].
  - cbn. intuition.
  - destruct (String.eqb_spec k k') as [-> | Hne].
    + cbn. intuition.
    + destruct (String.ltb k k'); cbn [In]; [intuition |].
      rewrite IH. intuition.
Qed.

Lemma insert_key_sorted (k : string) (ks : list string) :
  StronglySorted slt ks -> StronglySorted slt (insert_key k ks).
Proof.
  induction ks as [| k' ks IH]; intros Hs; cbn [insert_key].
  - repeat constructor.
  - inversion Hs as [| x l Hs' Hall]; subst.
    destruct (String.eqb k k') eqn:He; [exact Hs |].
    destruct (String.ltb k k') eqn:Hl.
    + constructor; [exact Hs |]. constructor; [exact Hl |].
      eapply Forall_impl; [| exact Hall].
      intros y Hy. now apply (slt_trans k k' y).
    + constructor; [now apply IH |].
      apply Forall_forall. intros y Hy. apply insert_key_In in Hy.
      destruct Hy as [-> | Hy].
      * now apply slt_total.
      * rewrite Forall_forall in Hall. now apply Hall.
Qed.

Lemma group_keys_sorted (col : list cell) : StronglySorted slt (group_keys col).
Proof.
  induction col as [| [k |] col IH]; cbn [group_keys].
  - constructor.
  - now apply insert_key_sorted.
  - exact IH.
Qed.

Lemma group_keys_In (k : string) (col : list cell) :
  In k (group_keys col) <-> In (Some k) col.
Proof.
  induction col as [| [k' |] col IH]; cbn [group_keys In].
  - tauto.
  - rewrite insert_key_In, IH. split; intros [H | H]; auto.
    + left. now subst.
    + left. now injection H.
  - rewrite IH. split; [auto | intros [H | H]; [discriminate | exact H]].
Qed.

Lemma sorted_NoDup (ks : list string) : StronglySorted slt ks -> NoDup ks.
Proof.
  induction 1 as [| k ks Hs IH Hall]; constructor; [| exact IH].
  intros Hin. rewrite Forall_forall in Hall.
  exact (slt_irrefl k (Hall k Hin)).
Qed.

Lemma groupby_size_routes (table : list EnrichedRoute) :
  map rc_route (groupby_size table) = group_keys (map route table).
Proof.
  unfold groupby_size. rewrite map_map. cbn [rc_route]. apply map_id.
Qed.

Lemma groupby_size_In (table : list EnrichedRoute) (r : RouteCount) :
  In r (groupby_size table) <->
  In (Some (rc_route r)) (map route table) /\
  count r = group_size (map route table) (rc_route r).
Proof.
  unfold groupby_size. rewrite in_map_iff. split.
  - intros (k & <- & Hk). cbn [rc_route count].
    split; [now apply group_keys_In | reflexivity].
  - intros [Hin Hc]. exists (rc_route r). split.
    + destruct r as [k c]; cbn [rc_route count] in *. now subst c.
    + now apply group_keys_In.
Qed.

End GroupingFacts.

Section SortingFacts.
Import Tables Ranker.

Lemma map_nth_seq {A : Type} (l : list A) (d : A) :
  map (fun i => nth i l d) (seq 0 (List.length l)) = l.
Proof.
  apply (nth_ext _ _ d d).
  - now rewrite length_map, length_seq.
  - intros n Hn. rewrite length_map, length_seq in Hn.
    now rewrite nth_map_seq.
Qed.

Lemma nth_rev_seq (n i : nat) :
  (i < n)%nat -> nth i (rev (seq 0 n)) 0%nat = (n - S i)%nat.
Proof.
  intros H. rewrite rev_nth by now rewrite length_seq.
  rewrite length_seq, seq_nth by lia. reflexivity.
Qed.

Lemma sorted_snoc {A : Type} (R : A -> A -> Prop) (l : list A) (a : A) :
  StronglySorted R l -> Forall (fun x => R x a) l ->
  StronglySorted R (l ++ [a]).
Proof.
  induction 1 as [| x l Hs IH Hall]; intros Hl; cbn [app].
  - repeat constructor.
  - inversion Hl as [| y l' Hxa Hl']; subst.
    constructor; [now apply IH |].
    apply Forall_app. split; [exact Hall | now constructor].
Qed.

Lemma sorted_rev {A : Type} (R : A -> A -> Prop) (l : list A) :
  StronglySorted R l -> StronglySorted (fun a b => R b a) (rev l).
Proof.
  induction 1 as [| x l Hs IH Hall]; cbn [rev]; [constructor |].
  apply sorted_snoc; [exact IH |].
  apply Forall_rev. exact Hall.
Qed.

Lemma take_in_range (rows : list RouteCount) (d : RouteCount)
  (indexer : list nat) :
  Forall (fun i => (i < List.length rows)%nat) indexer ->
  take rows indexer = map (fun i => nth i rows d) indexer.
Proof.
  unfold take. induction 1 as [| i indexer Hi _ IH]; [reflexivity |].
  cbn [flat_map map]. rewrite IH.
  destruct (nth_error rows i) as [r |] eqn:Hr.
  - now rewrite (nth_error_nth _ _ d Hr).
  - apply nth_error_None in Hr. lia.
Qed.

Lemma permutation_in_range (p : list nat) (n : nat) :
  Permutation p (seq 0 n) -> Forall (fun i => (i < n)%nat) p.
Proof.
  intros Hp. apply Forall_forall. intros i Hi.
  apply (Permutation_in _ Hp), in_seq in Hi. lia.
Qed.

Variable argsort : list Z -> list nat.

Lemma nargsort_permutation (items : list Z) :
  sorts_ascending argsort (rev items) ->
  Permutation (nargsort_descending argsort items) (seq 0 (List.length items)).
Proof.
  intros [Hp _]. rewrite length_rev in Hp. unfold nargsort_descending.
  rewrite <- Permutation_rev.
  rewrite (Permutation_map (fun i => nth i (rev (seq 0 (List.length items))) 0%nat) Hp).
  pose proof (map_nth_seq (rev (seq 0 (List.length items))) 0%nat) as Hm.
  rewrite length_rev, length_seq in Hm. rewrite Hm.
  symmetry. apply Permutation_rev.
Qed.

Lemma nargsort_reads_descending (items : list Z) :
  sorts_ascending argsort (rev items) ->
  StronglySorted (fun a b => b <= a)
    (map (fun i => nth i items 0) (nargsort_descending argsort items)).
Proof.
  intros [Hp Hs]. rewrite length_rev in Hp.
  pose proof (permutation_in_range _ _ Hp) as Hr.
  unfold nargsort_descending. rewrite map_rev, map_map.
  apply sorted_rev.
  erewrite map_ext_in; [exact Hs |].
  intros i Hi. cbv beta. rewrite Forall_forall in Hr. specialize (Hr i Hi).
  rewrite nth_rev_seq by exact Hr.
  now rewrite rev_nth by exact Hr.
Qed.

Lemma sort_values_permutation (rows : list RouteCount) :
  sorts_ascending argsort (rev (map count rows)) ->
  Permutation (sort_values_count_descending argsort rows) rows.
Proof.
  intros H. pose proof (nargsort_permutation _ H) as Hp.
  rewrite length_map in Hp. unfold sort_values_count_descending, take.
  rewrite (Permutation_flat_map _ Hp).
  fold (take rows (seq 0 (List.length rows))).
  rewrite (take_in_range rows (mkRouteCount "" 0)).
  - now rewrite map_nth_seq.
  - apply Forall_forall. intros i Hi. apply in_seq in Hi. lia.
Qed.

Lemma sort_values_descending (rows : list RouteCount) :
  sorts_ascending argsort (rev (map count rows)) ->
  StronglySorted (fun a b => count b <= count a)
    (sort_values_count_descending argsort rows).
Proof.
  intros H. pose proof (nargsort_permutation _ H) as Hp.
  rewrite length_map in Hp.
  pose proof (nargsort_reads_descending _ H) as Hs.
  unfold sort_values_count_descending.
  rewrite (take_in_range rows (mkRouteCount "" 0))
    by now apply permutation_in_range.
  set (ix := nargsort_descending argsort (map count rows)) in *.
  assert (Hc : map (fun i => nth i (map count rows) 0) ix
               = map count (map (fun i => nth i rows (mkRouteCount "" 0)) ix)).
  { rewrite map_map. apply map_ext. intros i.
    change 0 with (count (mkRouteCount "" 0)). apply map_nth. }
  rewrite Hc in Hs. clear Hc.
  induction (map (fun i => nth i rows (mkRouteCount "" 0)) ix) as [| r l IH];
    [constructor |].
  cbn [map] in Hs. inversion Hs as [| x l' Hs' Hall]; subst.
  constructor; [now apply IH |].
  now rewrite Forall_map in Hall.
Qed.

End SortingFacts.

Section RankerClaims.
Import Tables Ranker.
Local Open Scope string_scope.

Lemma sorted_map_inv {A B : Type} (R : B -> B -> Prop) (f : A -> B)
  (l : list A) :
  StronglySorted R (map f l) -> StronglySorted (fun a b => R (f a) (f b)) l.
Proof.
  induction l as [| a l IH]; intros Hs; [constructor |].
  cbn [map] in Hs. inversion Hs as [| x l' Hs' Hall]; subst.
  constructor; [now apply IH |].
  now rewrite Forall_map in Hall.
Qed.

(** C4 (as amended): for every enriched table and country filter, the
    ranking is in descending order of count and lists each route of the
    filtered table exactly once with the number of its rows; it is a
    reordering of the groups, which are formed in ascending order of route
    identifier.  Which of two records with equal counts comes first is left
    to the sort and is not the first-seen order of the table. *)
Theorem C4_ranking_descending_by_count :
  forall (argsort : list Z -> list nat) (routes : list EnrichedRoute)
         (country_filter : string),
    let table := filter_by_country routes country_filter in
    let groups := groupby_size table in
    sorts_ascending argsort (rev (map count groups)) ->
    let records := route_counts argsort routes country_filter in
    StronglySorted (fun a b => count b <= count a) records /\
    Permutation records groups /\
    NoDup (map rc_route records) /\
    (forall r : RouteCount,
        In r records <->
        In (Some (rc_route r)) (map route table) /\
        count r = group_size (map route table) (rc_route r)) /\
    StronglySorted (fun a b => slt (rc_route a) (rc_route b)) groups.
Proof.
  intros argsort routes country_filter table groups Hsort records.
  assert (Hperm : Permutation records groups)
    by (apply sort_values_permutation; exact Hsort).
  assert (Hkeys : StronglySorted slt (map rc_route groups)).
  { subst groups. rewrite groupby_size_routes. apply group_keys_sorted. }
  split; [apply sort_values_descending; exact Hsort |].
  split; [exact Hperm |].
  split; [| split].
  - apply (Permutation_NoDup (l := map rc_route groups)).
    + symmetry. now apply Permutation_map.
    + now apply sorted_NoDup.
  - intros r. rewrite <- groupby_size_In. fold groups. split; intros Hin.
    + now apply (Permutation_in _ Hperm).
    + now apply (Permutation_in _ (Permutation_sym Hperm)).
  - now apply sorted_map_inv.
Qed.

(** C4 on the sample feed with the filter "Australia": three SYD-MEL rows
    and one SYD-BNE row are ranked SYD-MEL (3), SYD-BNE (1). *)
Lemma C4_ranking_descending_by_count_witness :
  let table := prepare_routes Samples.sample_airports Samples.sample_routes in
  sorts_ascending stable_argsort
    (rev (map count (groupby_size (filter_by_country table "Australia")))) /\
  route_counts stable_argsort table "Australia"
  = [mkRouteCount "SYD-MEL" 3; mkRouteCount "SYD-BNE" 1] /\
  StronglySorted (fun a b => count b <= count a)
    (route_counts stable_argsort table "Australia").
Proof.
  intros table.
  assert (Hs : sorts_ascending stable_argsort
                 (rev (map count
                         (groupby_size (filter_by_country table "Australia"))))).
  { assert (E : rev (map count
                       (groupby_size (filter_by_country table "Australia")))
                = [3; 1]) by (vm_compute; reflexivity).
    rewrite E. unfold sorts_ascending.
    change (stable_argsort [3; 1]) with [1%nat; 0%nat].
    split; [apply perm_swap |].
    cbn [map nth]. repeat constructor. lia. }
  split; [exact Hs |]. split; [vm_compute; reflexivity |].
  exact (proj1 (C4_ranking_descending_by_count
                  stable_argsort table "Australia" Hs)).
Defined.

(** C4, where the claim fails: SYD-MEL is seen before LHR-CDG, each once;
    the ranking (even with a stable sort) lists LHR-CDG first. *)
Lemma C4_first_seen_order_counterexample :
  let table := prepare_routes Samples.sample_airports Samples.tied_routes in
  let records := route_counts stable_argsort table "All" in
  map route table = [Some "SYD-MEL"; Some "LHR-CDG"] /\
  records = [mkRouteCount "LHR-CDG" 1; mkRouteCount "SYD-MEL" 1] /\
  ~ Spec.ties_in_first_seen_order (map route table) records.
Proof.
  intros table records.
  assert (Ht : map route table = [Some "SYD-MEL"; Some "LHR-CDG"])
    by (vm_compute; reflexivity).
  assert (Hr : records = [mkRouteCount "LHR-CDG" 1; mkRouteCount "SYD-MEL" 1])
    by (vm_compute; reflexivity).
  split; [exact Ht |]. split; [exact Hr |].
  rewrite Ht, Hr. intros H.
  destruct (H 0%nat 1%nat (mkRouteCount "LHR-CDG" 1) (mkRouteCount "SYD-MEL" 1)
              ltac:(lia) eq_refl eq_refl eq_refl) as (p & q & Hp & Hq & Hpq).
  vm_compute in Hp, Hq. injection Hp as <-. injection Hq as <-. lia.
Qed.

End RankerClaims.

(** ** Further properties of the route network builder *)
Section JoinFacts.
Import Tables Page.

(* where a row of a left merge comes from *)
Lemma merge_left_row {L O : Type} (left_on : L -> cell)
  (combine : L -> Endpoint -> O) (left : list L) (right : list Airport)
  (o : O) :
  In o (merge_left left_on combine left right) ->
  exists (l : L) (e : Endpoint),
    In l left /\ o = combine l e /\
    ((e = no_endpoint /\ matches (left_on l) right = 0%nat) \/
     (exists a : Airport,
         In a right /\ IATA a = left_on l /\ e = endpoint_of a)).
Proof.
  unfold merge_left. rewrite in_flat_map. intros (l & Hl & Ho).
  unfold matches.
  destruct (filter (fun a => key_eqb (left_on l) (IATA a)) right)
    as [| a ms] eqn:Hf.
  - destruct Ho as [<- | []]. exists l, no_endpoint.
    split; [exact Hl |]. split; [reflexivity |]. left.
    split; [reflexivity | now rewrite Hf].
  - apply in_map_iff in Ho. destruct Ho as (b & <- & Hb).
    rewrite <- Hf in Hb. apply filter_In in Hb. destruct Hb as [Hb Hk].
    apply key_eqb_eq in Hk. exists l, (endpoint_of b).
    split; [exact Hl |]. split; [reflexivity |]. right. exists b.
    split; [exact Hb |]. split; [now symmetry | reflexivity].
Qed.

(* every left row is kept at least once *)
Lemma merge_left_keeps {L O : Type} (left_on : L -> cell)
  (combine : L -> Endpoint -> O) (left : list L) (right : list Airport)
  (l : L) :
  In l left ->
  exists e : Endpoint, In (combine l e) (merge_left left_on combine left right).
Proof.
  intros Hl. unfold merge_left.
  destruct (filter (fun a => key_eqb (left_on l) (IATA a)) right)
    as [| a ms] eqn:Hf.
  - exists no_endpoint. apply in_flat_map. exists l. split; [exact Hl |].
    rewrite Hf. now left.
  - exists (endpoint_of a). apply in_flat_map. exists l. split; [exact Hl |].
    rewrite Hf. now left.
Qed.

Lemma list_sum_flat_map {A B : Type} (f : A -> list B) (g : B -> nat)
  (l : list A) :
  list_sum (map g (flat_map f l))
  = list_sum (map (fun a => list_sum (map g (f a))) l).
Proof.
  induction l as [| a l IH]; [reflexivity |].
  cbn [flat_map map]. rewrite map_app, list_sum_app, IH. reflexivity.
Qed.

Lemma list_sum_constant {B : Type} (g : B -> nat) (c : nat) (l : list B) :
  Forall (fun b => g b = c) l ->
  list_sum (map g l) = (List.length l * c)%nat.
Proof.
  induction 1 as [| b l Hb _ IH]; [reflexivity |].
  cbn [map List.length].
  change (list_sum (g b :: map g l)) with (g b + list_sum (map g l))%nat.
  rewrite Hb, IH. lia.
Qed.

Lemma merge_left_length {L O : Type} (left_on : L -> cell)
  (combine : L -> Endpoint -> O) (left : list L) (right : list Airport) :
  List.length (merge_left left_on combine left right)
  = list_sum (map (fun l => Nat.max 1 (matches (left_on l) right)) left).
Proof.
  unfold merge_left, matches.
  induction left as [| l left IH]; [reflexivity |].
  cbn [flat_map]. rewrite length_app, IH, map_cons.
  change (list_sum (?x :: ?t)) with (x + list_sum t)%nat.
  f_equal.
  destruct (filter (fun a => key_eqb (left_on l) (IATA a)) right);
    [reflexivity |].
  rewrite length_map. cbn [List.length]. lia.
Qed.

Lemma joined_rows_length {L O : Type} (left_on : L -> cell)
  (combine : L -> Endpoint -> O) (right : list Airport) (l : L) :
  List.length (joined_rows left_on combine right l)
  = Nat.max 1 (matches (left_on l) right).
Proof.
  unfold joined_rows, matches.
  destruct (filter (fun a => key_eqb (left_on l) (IATA a)) right);
    [reflexivity |].
  rewrite length_map. cbn [List.length]. lia.
Qed.

Lemma joined_rows_origin {L : Type} (left_on : L -> cell)
  (right : list Airport) (l : L) :
  Forall (fun le : L * Endpoint => fst le = l)
         (joined_rows left_on (fun l e => (l, e)) right l).
Proof.
  unfold joined_rows.
  destruct (filter (fun a => key_eqb (left_on l) (IATA a)) right).
  - repeat constructor.
  - apply Forall_forall. intros le Hle. apply in_map_iff in Hle.
    now destruct Hle as (ap & <- & _).
Qed.

Lemma prepare_routes_length (airports : list Airport) (routes : list Route) :
  List.length (prepare_routes airports routes)
  = list_sum
      (map (fun l =>
              (Nat.max 1 (matches (SourceIATA l) (filter_airports airports))
               * Nat.max 1 (matches (DestIATA l) (filter_airports airports)))%nat)
           (filter_routes routes)).
Proof.
  unfold prepare_routes. rewrite length_map, merge_left_length.
  set (a := filter_airports airports).
  change (merge_left SourceIATA (fun l e => (l, e)) (filter_routes routes) a)
    with (flat_map (joined_rows SourceIATA (fun l e => (l, e)) a)
                   (filter_routes routes)).
  rewrite list_sum_flat_map. f_equal. apply map_ext. intros l.
  rewrite (list_sum_constant _ (Nat.max 1 (matches (DestIATA l) a))).
  - now rewrite joined_rows_length.
  - eapply Forall_impl; [| apply joined_rows_origin].
    intros le Hle. cbv beta. now rewrite Hle.
Qed.

(* everything known about one row of the result *)
Lemma prepare_routes_row (airports : list Airport) (routes : list Route)
  (row : EnrichedRoute) :
  In row (prepare_routes airports routes) ->
  let a := filter_airports airports in
  In (base_route row) (filter_routes routes) /\
  route row = concat_cells (SourceIATA (base_route row)) "-"
                           (DestIATA (base_route row)) /\
  ((source row = no_endpoint /\
    matches (SourceIATA (base_route row)) a = 0%nat) \/
   (exists ap, In ap a /\ IATA ap = SourceIATA (base_route row) /\
               source row = endpoint_of ap)) /\
  ((dest row = no_endpoint /\
    matches (DestIATA (base_route row)) a = 0%nat) \/
   (exists ap, In ap a /\ IATA ap = DestIATA (base_route row) /\
               dest row = endpoint_of ap)).
Proof.
  intros Hin a. unfold prepare_routes in Hin. fold a in Hin.
  apply in_map_iff in Hin.
  destruct Hin as ([[l s] d] & <- & Hin). cbn [base_route route source dest].
  apply merge_left_row in Hin.
  destruct Hin as ([l1 s1] & e2 & Hin1 & Heq & Hd).
  cbn [fst snd] in Heq, Hd. cbv beta in Heq. cbn [fst snd] in Heq.
  injection Heq as El Es Ed. subst l s d.
  apply merge_left_row in Hin1.
  destruct Hin1 as (l0 & e1 & Hin0 & Heq & Hs).
  injection Heq as El Es. subst l1 s1.
  repeat split; assumption.
Qed.

End JoinFacts.

Section JoinProperties.
Import Tables Page.

Lemma map_const_repeat {A B : Type} (x : B) (l : list A) :
  map (fun _ => x) l = repeat x (List.length l).
Proof. induction l as [| a l IH]; [reflexivity |]. cbn. now rewrite IH. Qed.

Lemma flat_map_const_repeat {A B : Type} (x : B) (n : nat) (l : list A) :
  flat_map (fun _ => repeat x n) l = repeat x (List.length l * n).
Proof.
  induction l as [| a l IH]; [reflexivity |].
  cbn [flat_map List.length]. rewrite IH, <- repeat_app. f_equal.
Qed.

Lemma flat_map_nested {A B C : Type} (f : A -> list B) (g : B -> list C)
  (l : list A) :
  flat_map g (flat_map f l) = flat_map (fun a => flat_map g (f a)) l.
Proof.
  induction l as [| a l IH]; [reflexivity |].
  cbn [flat_map]. now rewrite flat_map_app, IH.
Qed.

Lemma flat_map_ext_Forall {A B : Type} (f g : A -> list B) (l : list A) :
  Forall (fun a => f a = g a) l -> flat_map f l = flat_map g l.
Proof.
  induction 1 as [| a l Ha _ IH]; [reflexivity |].
  cbn [flat_map]. now rewrite Ha, IH.
Qed.

Lemma map_over_flat_map {A B C : Type} (f : A -> list B) (h : B -> C)
  (l : list A) :
  map h (flat_map f l) = flat_map (fun a => map h (f a)) l.
Proof.
  induction l as [| a l IH]; [reflexivity |].
  cbn [flat_map]. now rewrite map_app, IH.
Qed.

(* the left rows of the rows one left row turns into *)
Lemma joined_rows_left {L O : Type} (left_on : L -> cell)
  (combine : L -> Endpoint -> O) (proj : O -> L) (right : list Airport)
  (l : L) :
  (forall l e, proj (combine l e) = l) ->
  map proj (joined_rows left_on combine right l)
  = repeat l (Nat.max 1 (matches (left_on l) right)).
Proof.
  intros Hproj. unfold joined_rows, matches.
  destruct (filter (fun a => key_eqb (left_on l) (IATA a)) right)
    as [| a ms].
  - cbn. now rewrite Hproj.
  - rewrite map_map.
    rewrite (map_ext _ (fun _ => l)) by (intros; apply Hproj).
    rewrite map_const_repeat. f_equal; cbn [List.length]; lia.
Qed.

Lemma prepare_routes_base_routes (airports : list Airport)
  (routes : list Route) :
  let a := filter_airports airports in
  map base_route (prepare_routes airports routes)
  = flat_map
      (fun l => repeat l (Nat.max 1 (matches (SourceIATA l) a)
                          * Nat.max 1 (matches (DestIATA l) a)))
      (filter_routes routes).
Proof.
  intros a. unfold prepare_routes. fold a. rewrite map_map.
  rewrite (map_ext _ (fun x : Route * Endpoint * Endpoint => fst (fst x)))
    by (intros [[l s] d]; reflexivity).
  change (merge_left (fun le : Route * Endpoint => DestIATA (fst le))
            (fun le e => (fst le, snd le, e))
            (merge_left SourceIATA (fun l e => (l, e)) (filter_routes routes) a)
            a)
    with (flat_map
            (joined_rows (fun le : Route * Endpoint => DestIATA (fst le))
                         (fun le e => (fst le, snd le, e)) a)
            (flat_map (joined_rows SourceIATA (fun l e => (l, e)) a)
                      (filter_routes routes))).
  rewrite flat_map_nested, map_over_flat_map.
  apply flat_map_ext. intros l.
  rewrite map_over_flat_map.
  rewrite (flat_map_ext_Forall _
             (fun _ => repeat l (Nat.max 1 (matches (DestIATA l) a)))).
  - rewrite flat_map_const_repeat, joined_rows_length. reflexivity.
  - eapply Forall_impl; [| apply joined_rows_origin].
    intros [l' s] Hle. cbn [fst] in Hle. subst l'.
    rewrite <- (map_map fst fst).
    rewrite (joined_rows_left _ _ fst) by (intros [? ?] ?; reflexivity).
    now rewrite map_repeat.
Qed.

Lemma matches_positive (key : cell) (right : list Airport) (ap : Airport) :
  In ap right -> IATA ap = key -> (0 < matches key right)%nat.
Proof.
  intros Hin Hk. unfold matches.
  assert (H : In ap (filter (fun a => key_eqb key (IATA a)) right)).
  { apply filter_In. split; [exact Hin |]. now apply key_eqb_eq. }
  destruct (filter (fun a => key_eqb key (IATA a)) right);
    [contradiction | cbn; lia].
Qed.

Lemma ne_true (c : cell) (s : string) : ne c s = true <-> c <> Some s.
Proof.
  destruct c as [x |]; cbn.
  - destruct (String.eqb_spec x s) as [-> | Hne]; cbn; split; intros H.
    + discriminate H.
    + exfalso. now apply H.
    + intros E. injection E as E. contradiction.
    + reflexivity.
  - split; [discriminate | reflexivity].
Qed.

(** Every row the builder returns comes from a route row of the input,
    has neither endpoint code equal to the sentinel, and carries the route
    identifier SourceIATA + "-" + DestIATA (NaN when either code is NaN). *)
Theorem prepare_routes_rows_well_formed :
  forall (airports : list Airport) (routes : list Route),
    Forall (fun row =>
              In (base_route row) routes /\
              SourceIATA (base_route row) <> Some null_sentinel /\
              DestIATA (base_route row) <> Some null_sentinel /\
              route row = concat_cells (SourceIATA (base_route row)) "-"
                                       (DestIATA (base_route row)))
           (prepare_routes airports routes).
Proof.
  intros airports routes. apply Forall_forall. intros row Hrow.
  destruct (prepare_routes_row _ _ _ Hrow) as (Hin & Hr & _).
  unfold filter_routes in Hin. apply filter_In in Hin.
  destruct Hin as [Hin Hne]. apply andb_true_iff in Hne.
  destruct Hne as [Hs Hd]. apply ne_true in Hs. apply ne_true in Hd.
  repeat split; assumption.
Qed.

(** The joins neither drop nor invent a route: a route row is among the
    base rows of the result exactly when it passes the sentinel filter, and
    the result is at least as long as the filtered routes, whatever the
    airports are. *)
Theorem prepare_routes_keeps_every_route :
  forall (airports : list Airport) (routes : list Route),
    (forall r : Route,
        In r (map base_route (prepare_routes airports routes)) <->
        In r (filter_routes routes)) /\
    (List.length (filter_routes routes)
     <= List.length (prepare_routes airports routes))%nat.
Proof.
  intros airports routes. split.
  - intros r. rewrite prepare_routes_base_routes, in_flat_map. split.
    + intros (l & Hl & Hr). apply repeat_spec in Hr. now subst.
    + intros Hr. exists r. split; [exact Hr |].
      set (n := (Nat.max 1 _ * Nat.max 1 _)%nat).
      assert (Hn : (0 < n)%nat) by (subst n; nia).
      destruct n as [| n]; [lia | now left].
  - rewrite prepare_routes_length.
    induction (filter_routes routes) as [| l rest IH]; [cbn; lia |].
    cbn [List.length map].
    change (list_sum (?x :: ?t)) with (x + list_sum t)%nat. nia.
Qed.

(** Row count and order with any airport table: each filtered route row
    appears, in its original position, as many times as (airports matching
    its source code, at least 1) times (airports matching its destination
    code, at least 1); duplicated IATA codes multiply rows. *)
Theorem prepare_routes_row_multiplicity :
  forall (airports : list Airport) (routes : list Route),
    let a := filter_airports airports in
    let copies := fun l : Route =>
                    (Nat.max 1 (matches (SourceIATA l) a)
                     * Nat.max 1 (matches (DestIATA l) a))%nat in
    map base_route (prepare_routes airports routes)
    = flat_map (fun l => repeat l (copies l)) (filter_routes routes) /\
    List.length (prepare_routes airports routes)
    = list_sum (map copies (filter_routes routes)).
Proof.
  intros airports routes a copies. split.
  - apply prepare_routes_base_routes.
  - apply prepare_routes_length.
Qed.

(** A join miss is tolerated and a join hit is exact: in every row of the
    result the five source columns are all NaN when no filtered airport has
    the source code, and otherwise are the city, country, name, latitude and
    longitude of a filtered airport with that code; the same for the
    destination columns. *)
Theorem prepare_routes_join_hit_or_miss :
  forall (airports : list Airport) (routes : list Route),
    let a := filter_airports airports in
    Forall (fun row =>
              ((source row = no_endpoint /\
                matches (SourceIATA (base_route row)) a = 0%nat) \/
               (exists ap, In ap a /\
                           IATA ap = SourceIATA (base_route row) /\
                           source row = endpoint_of ap /\
                           (0 < matches (SourceIATA (base_route row)) a)%nat)) /\
              ((dest row = no_endpoint /\
                matches (DestIATA (base_route row)) a = 0%nat) \/
               (exists ap, In ap a /\
                           IATA ap = DestIATA (base_route row) /\
                           dest row = endpoint_of ap /\
                           (0 < matches (DestIATA (base_route row)) a)%nat)))
           (prepare_routes airports routes).
Proof.
  intros airports routes a. apply Forall_forall. intros row Hrow.
  destruct (prepare_routes_row _ _ _ Hrow) as (_ & _ & Hs & Hd). fold a in Hs, Hd.
  split.
  - destruct Hs as [Hs | (ap & Hin & Hk & He)]; [now left | right].
    exists ap. repeat split; try assumption. now apply (matches_positive _ _ ap).
  - destruct Hd as [Hd | (ap & Hin & Hk & He)]; [now left | right].
    exists ap. repeat split; try assumption. now apply (matches_positive _ _ ap).
Qed.

(** After the clean-up of line 39 no route identifier is NaN: every row
    built from the cleaned routes has string codes s and d, neither the
    sentinel, and the identifier s ++ "-" ++ d. *)
Theorem cleaned_routes_have_identifiers :
  forall (airports : list Airport) (routes : list Route),
    Forall (fun row =>
              exists s d : string,
                SourceIATA (base_route row) = Some s /\
                DestIATA (base_route row) = Some d /\
                s <> null_sentinel /\ d <> null_sentinel /\
                route row = Some (s ++ "-" ++ d)%string)
           (prepare_routes airports (dropna_routes routes)).
Proof.
  intros airports routes. apply Forall_forall. intros row Hrow.
  destruct (prepare_routes_row _ _ _ Hrow) as (Hin & Hr & _).
  unfold filter_routes in Hin. apply filter_In in Hin.
  destruct Hin as [Hin Hne]. apply andb_true_iff in Hne.
  destruct Hne as [Hs Hd]. apply ne_true in Hs. apply ne_true in Hd.
  unfold dropna_routes in Hin. apply filter_In in Hin.
  destruct Hin as [_ Hna]. apply andb_true_iff in Hna.
  destruct Hna as [Hns Hnd].
  destruct (SourceIATA (base_route row)) as [s |]; [| discriminate].
  destruct (DestIATA (base_route row)) as [d |]; [| discriminate].
  exists s, d. repeat split; try congruence. exact Hr.
Qed.

End JoinProperties.

(** ** Further properties of the ranking and of the page's selectors *)
Section CountingFacts.
Import Tables Ranker Page.
Local Open Scope string_scope.

Lemma sum_map_add {A : Type} (f g : A -> Z) (l : list A) :
  fold_right Z.add 0 (map (fun x => f x + g x) l)
  = fold_right Z.add 0 (map f l) + fold_right Z.add 0 (map g l).
Proof. induction l as [| a l IH]; cbn; [reflexivity | rewrite IH; lia]. Qed.

Lemma sum_map_perm {A : Type} (f : A -> Z) (l l' : list A) :
  Permutation l l' ->
  fold_right Z.add 0 (map f l) = fold_right Z.add 0 (map f l').
Proof. induction 1; cbn; lia. Qed.

Lemma total_count_perm (l l' : list RouteCount) :
  Permutation l l' -> total_count l = total_count l'.
Proof. apply sum_map_perm. Qed.

Lemma insert_key_member (k : string) (ks : list string) :
  StronglySorted slt ks -> In k ks -> insert_key k ks = ks.
Proof.
  induction ks as [| k' ks IH]; intros Hs Hin; [contradiction |].
  inversion Hs as [| x l Hs' Hall]; subst. cbn [insert_key].
  destruct (String.eqb_spec k k') as [-> | Hne]; [reflexivity |].
  destruct Hin as [-> | Hin]; [contradiction |].
  rewrite Forall_forall in Hall. specialize (Hall k Hin).
  destruct (String.ltb k k') eqn:Hl.
  - exfalso. apply (slt_irrefl k). now apply (slt_trans k k' k).
  - now rewrite IH.
Qed.

Lemma insert_key_fresh (k : string) (ks : list string) :
  ~ In k ks -> Permutation (insert_key k ks) (k :: ks).
Proof.
  induction ks as [| k' ks IH]; intros Hnin; [reflexivity |].
  cbn [insert_key].
  destruct (String.eqb_spec k k') as [-> | Hne].
  - exfalso. apply Hnin. now left.
  - destruct (String.ltb k k'); [reflexivity |].
    rewrite IH by (intros H; apply Hnin; now right). apply perm_swap.
Qed.

Lemma indicator_sum (k0 : string) (ks : list string) :
  fold_right Z.add 0 (map (fun k => if String.eqb k0 k then 1 else 0) ks)
  = Z.of_nat (List.length (filter (String.eqb k0) ks)).
Proof.
  induction ks as [| k ks IH]; [reflexivity |].
  cbn [map fold_right filter]. rewrite IH.
  destruct (String.eqb k0 k); cbn [List.length]; lia.
Qed.

Lemma filter_eqb_absent (k0 : string) (ks : list string) :
  ~ In k0 ks -> filter (String.eqb k0) ks = [].
Proof.
  induction ks as [| k ks IH]; intros Hnin; [reflexivity |].
  cbn [filter]. destruct (String.eqb_spec k0 k) as [-> | _].
  - exfalso. apply Hnin. now left.
  - apply IH. intros H. apply Hnin. now right.
Qed.

Lemma filter_eqb_once (k0 : string) (ks : list string) :
  NoDup ks -> In k0 ks -> List.length (filter (String.eqb k0) ks) = 1%nat.
Proof.
  induction 1 as [| k ks Hnin Hnd IH]; intros Hin; [contradiction |].
  cbn [filter]. destruct (String.eqb_spec k0 k) as [-> | Hne].
  - now rewrite filter_eqb_absent.
  - destruct Hin as [-> | Hin]; [contradiction | now apply IH].
Qed.

Lemma group_size_absent (col : list cell) (k : string) :
  ~ In (Some k) col -> group_size col k = 0.
Proof.
  intros Hnin. unfold group_size.
  assert (H : filter (fun c => eq c k) col = []).
  { induction col as [| c col IH]; [reflexivity |].
    cbn [filter]. destruct (eq c k) eqn:Hc.
    - apply eq_cell_true in Hc. exfalso. apply Hnin. left. exact Hc.
    - apply IH. intros H. apply Hnin. now right. }
  now rewrite H.
Qed.

Lemma group_size_cons (c : cell) (col : list cell) (k : string) :
  group_size (c :: col) k
  = (match c with
     | Some k0 => if String.eqb k0 k then 1 else 0
     | None => 0
     end) + group_size col k.
Proof.
  unfold group_size. cbn [filter]. destruct c as [k0 |]; cbn [eq].
  - destruct (String.eqb k0 k); cbn [List.length]; lia.
  - lia.
Qed.

Lemma group_sizes_sum (col : list cell) :
  fold_right Z.add 0 (map (group_size col) (group_keys col))
  = Z.of_nat (List.length (dropna col)).
Proof.
  induction col as [| [k0 |] col IH].
  - reflexivity.
  - cbn [group_keys].
    change (dropna (Some k0 :: col)) with (k0 :: dropna col).
    cbn [List.length].
    pose proof (group_keys_sorted col) as Hs.
    rewrite (map_ext _ (fun k => (if String.eqb k0 k then 1 else 0)
                                 + group_size col k))
      by (intros k; apply group_size_cons).
    destruct (in_dec string_dec k0 (group_keys col)) as [Hin | Hnin].
    + rewrite (insert_key_member _ _ Hs Hin), sum_map_add, IH, indicator_sum.
      rewrite (filter_eqb_once _ _ (sorted_NoDup _ Hs) Hin). lia.
    + rewrite (sum_map_perm _ _ _ (insert_key_fresh _ _ Hnin)).
      cbn [map fold_right]. rewrite sum_map_add, IH, indicator_sum.
      rewrite (filter_eqb_absent _ _ Hnin), String.eqb_refl.
      rewrite group_size_absent
        by (intros H; apply Hnin; now apply group_keys_In).
      cbn [List.length]. lia.
  - cbn [group_keys]. change (dropna (None :: col)) with (dropna col).
    rewrite (map_ext _ (group_size col))
      by (intros k; rewrite group_size_cons; lia).
    exact IH.
Qed.

Lemma groupby_size_total (table : list EnrichedRoute) :
  total_count (groupby_size table)
  = Z.of_nat (List.length (dropna (map route table))).
Proof.
  unfold total_count, groupby_size. rewrite map_map. cbn [count].
  apply group_sizes_sum.
Qed.

Lemma sorted_app_inv {A : Type} (R : A -> A -> Prop) (l1 l2 : list A) :
  StronglySorted R (l1 ++ l2) ->
  forall a b, In a l1 -> In b l2 -> R a b.
Proof.
  induction l1 as [| x l1 IH]; intros Hs a b Ha Hb; [contradiction |].
  cbn [app] in Hs. inversion Hs as [| y l Hs' Hall]; subst.
  destruct Ha as [-> | Ha].
  - rewrite Forall_forall in Hall. apply Hall. apply in_or_app. now right.
  - now apply IH.
Qed.

Lemma filter_filter {A : Type} (f g : A -> bool) (l : list A) :
  filter f (filter g l) = filter (fun x => f x && g x) l.
Proof.
  induction l as [| a l IH]; [reflexivity |].
  cbn [filter]. destruct (g a); cbn [filter]; rewrite IH.
  - now rewrite andb_true_r.
  - now rewrite andb_false_r.
Qed.

Lemma filter_map_length {A B : Type} (h : A -> B) (f : B -> bool)
  (l : list A) :
  List.length (filter f (map h l))
  = List.length (filter (fun x => f (h x)) l).
Proof.
  induction l as [| a l IH]; [reflexivity |].
  cbn [map filter]. destruct (f (h a)); cbn [List.length]; now rewrite IH.
Qed.

(* the sample feed ranked under the filter "Australia" *)
Lemma sample_ranking_sorts :
  sorts_ascending stable_argsort
    (rev (map count
            (groupby_size
               (filter_by_country
                  (prepare_routes Samples.sample_airports Samples.sample_routes)
                  "Australia")))).
Proof.
  assert (E : rev (map count
                     (groupby_size
                        (filter_by_country
                           (prepare_routes Samples.sample_airports
                                           Samples.sample_routes)
                           "Australia")))
              = [3; 1]%Z) by (vm_compute; reflexivity).
  rewrite E. unfold sorts_ascending.
  change (stable_argsort [3; 1]%Z) with [1%nat; 0%nat].
  split; [apply perm_swap |].
  cbn [map nth]. repeat constructor. lia.
Qed.

End CountingFacts.

Section RankingProperties.
Import Tables Ranker Page.
Local Open Scope string_scope.

Lemma dropna_all_present (col : list cell) :
  Forall (fun c => c <> None) col ->
  List.length (dropna col) = List.length col.
Proof.
  induction 1 as [| c col Hc _ IH]; [reflexivity |].
  destruct c as [k |]; [| contradiction].
  change (dropna (Some k :: col)) with (k :: dropna col).
  cbn [List.length]. now rewrite IH.
Qed.

(** The counts of the ranking add up to the number of rows of the filtered
    table that have a route identifier; when no identifier is NaN that is
    every row of the filtered table. *)
Theorem route_counts_sum_to_rows :
  forall (argsort : list Z -> list nat) (routes : list EnrichedRoute)
         (country_filter : string),
    let table := filter_by_country routes country_filter in
    sorts_ascending argsort (rev (map count (groupby_size table))) ->
    total_count (route_counts argsort routes country_filter)
    = Z.of_nat (List.length (dropna (map route table))) /\
    (Forall (fun row => route row <> None) table ->
     total_count (route_counts argsort routes country_filter)
     = Z.of_nat (List.length table)).
Proof.
  intros argsort routes country_filter table Hsort.
  assert (Ht : total_count (route_counts argsort routes country_filter)
               = Z.of_nat (List.length (dropna (map route table)))).
  { unfold route_counts. fold table.
    rewrite (total_count_perm _ _ (sort_values_permutation argsort _ Hsort)).
    apply groupby_size_total. }
  split; [exact Ht |].
  intros Hall. rewrite Ht, dropna_all_present, length_map; [reflexivity |].
  now apply Forall_map.
Qed.

(** On the sample feed under "Australia": counts 3 and 1 for four rows. *)
Lemma route_counts_sum_to_rows_witness :
  let table := prepare_routes Samples.sample_airports Samples.sample_routes in
  sorts_ascending stable_argsort
    (rev (map count (groupby_size (filter_by_country table "Australia")))) /\
  total_count (route_counts stable_argsort table "Australia") = 4%Z.
Proof.
  intros table. split; [exact sample_ranking_sorts |].
  rewrite (proj1 (route_counts_sum_to_rows stable_argsort table "Australia"
                    sample_ranking_sorts)).
  vm_compute. reflexivity.
Defined.

(** The table of the top N routes (N >= 0) is the first min(N, number of
    records) records of the ranking, and no record left out has a larger
    count than a record shown. *)
Theorem top_routes_are_most_frequent :
  forall (argsort : list Z -> list nat) (routes : list EnrichedRoute)
         (country_filter : string) (top_n : Z),
    sorts_ascending argsort
      (rev (map count (groupby_size (filter_by_country routes country_filter)))) ->
    (0 <= top_n)%Z ->
    let records := route_counts argsort routes country_filter in
    let top := top_routes argsort routes country_filter top_n in
    List.length top = Nat.min (Z.to_nat top_n) (List.length records) /\
    exists rest : list RouteCount,
      records = (top ++ rest)%list /\
      forall a b : RouteCount, In a top -> In b rest -> (count b <= count a)%Z.
Proof.
  intros argsort routes country_filter top_n Hsort Hn records top.
  assert (Etop : top = firstn (Z.to_nat top_n) records).
  { subst top. unfold top_routes, head. fold records.
    destruct (Z.leb_spec 0 top_n); [reflexivity | lia]. }
  rewrite Etop. split; [apply length_firstn |].
  exists (skipn (Z.to_nat top_n) records).
  split; [symmetry; apply firstn_skipn |].
  intros a b Ha Hb.
  assert (Hs : StronglySorted (fun a b => (count b <= count a)%Z) records)
    by (apply sort_values_descending; exact Hsort).
  rewrite <- (firstn_skipn (Z.to_nat top_n) records) in Hs.
  exact (sorted_app_inv _ _ _ Hs a b Ha Hb).
Qed.

(** On the sample feed the top 1 route under "Australia" is SYD-MEL. *)
Lemma top_routes_are_most_frequent_witness :
  let table := prepare_routes Samples.sample_airports Samples.sample_routes in
  sorts_ascending stable_argsort
    (rev (map count (groupby_size (filter_by_country table "Australia")))) /\
  (0 <= 1)%Z /\
  List.length (top_routes stable_argsort table "Australia" 1) = 1%nat.
Proof.
  intros table. split; [exact sample_ranking_sorts |]. split; [lia |].
  rewrite (proj1 (top_routes_are_most_frequent stable_argsort table
                    "Australia" 1 sample_ranking_sorts ltac:(lia))).
  vm_compute. reflexivity.
Defined.

(** Under a country filter other than "All" a record counts exactly the rows
    of the network whose route is the record's and whose source country is
    the filter (an exact, case-sensitive match; rows without a matched
    source airport are never counted), and every count is at least 1. *)
Theorem country_filter_counts :
  forall (argsort : list Z -> list nat) (routes : list EnrichedRoute)
         (country_filter : string),
    country_filter <> "All" ->
    sorts_ascending argsort
      (rev (map count (groupby_size (filter_by_country routes country_filter)))) ->
    Forall (fun r =>
              count r
              = Z.of_nat
                  (List.length
                     (filter (fun row => eq (route row) (rc_route r)
                                         && eq (SourceCountry row) country_filter)
                             routes)) /\
              (1 <= count r)%Z)
           (route_counts argsort routes country_filter).
Proof.
  intros argsort routes country_filter Hc Hsort.
  apply Forall_forall. intros r Hr.
  apply (Permutation_in _ (sort_values_permutation argsort _ Hsort)) in Hr.
  apply groupby_size_In in Hr. destruct Hr as [Hin Hcount].
  assert (Hsize : group_size (map route (filter_by_country routes country_filter))
                             (rc_route r)
                  = Z.of_nat
                      (List.length
                         (filter (fun row => eq (route row) (rc_route r)
                                             && eq (SourceCountry row) country_filter)
                                 routes))).
  { unfold group_size, filter_by_country.
    destruct (String.eqb_spec country_filter "All") as [E | _];
      [contradiction |].
    now rewrite filter_map_length, filter_filter. }
  rewrite Hcount, Hsize. split; [reflexivity |].
  rewrite <- Hsize. unfold group_size.
  assert (Hf : In (Some (rc_route r))
                  (filter (fun c => eq c (rc_route r))
                          (map route (filter_by_country routes country_filter)))).
  { apply filter_In. split; [exact Hin |]. now apply eq_cell_true. }
  destruct (filter (fun c => eq c (rc_route r))
                   (map route (filter_by_country routes country_filter)));
    [contradiction | cbn [List.length]; lia].
Qed.

(** On the sample feed under "Australia" every record satisfies it. *)
Lemma country_filter_counts_witness :
  let table := prepare_routes Samples.sample_airports Samples.sample_routes in
  "Australia" <> "All" /\
  sorts_ascending stable_argsort
    (rev (map count (groupby_size (filter_by_country table "Australia")))) /\
  Forall (fun r => (1 <= count r)%Z)
         (route_counts stable_argsort table "Australia").
Proof.
  intros table.
  assert (Hne : "Australia" <> "All") by discriminate.
  split; [exact Hne |]. split; [exact sample_ranking_sorts |].
  eapply Forall_impl;
    [| exact (country_filter_counts stable_argsort table "Australia"
                Hne sample_ranking_sorts)].
  intros r [_ H]. exact H.
Defined.

End RankingProperties.

Section SelectorProperties.
Import Tables Ranker Page.
Local Open Scope string_scope.

Lemma dropna_In (col : list cell) (s : string) :
  In s (dropna col) <-> In (Some s) col.
Proof.
  unfold dropna. rewrite in_flat_map. split.
  - intros ([x |] & Hin & Hs); [| contradiction].
    destruct Hs as [-> | []]. exact Hin.
  - intros Hin. exists (Some s). split; [exact Hin | now left].
Qed.

Lemma unique_In (l : list string) (x : string) : In x (unique l) <-> In x l.
Proof.
  induction l as [| y l IH]; [reflexivity |].
  cbn [unique In]. rewrite filter_In, IH. split.
  - intros [H | [H _]]; auto.
  - intros [H | H]; [now left |].
    destruct (String.eqb_spec x y) as [-> | Hne]; [now left |].
    right. split; [exact H |].
    destruct (String.eqb_spec x y); [contradiction | reflexivity].
Qed.

Lemma unique_NoDup (l : list string) : NoDup (unique l).
Proof.
  induction l as [| y l IH]; [constructor |].
  cbn [unique]. constructor.
  - rewrite filter_In. intros [_ H]. now rewrite String.eqb_refl in H.
  - now apply NoDup_filter.
Qed.

Lemma insert_sorted_In (x y : string) (l : list string) :
  In y (insert_sorted x l) <-> y = x \/ In y l.
Proof.
  induction l as [| z l IH]; cbn [insert_sorted].
  - cbn. intuition.
  - destruct (String.leb x z); cbn [In]; [intuition |].
    rewrite IH. intuition.
Qed.

Lemma sorted_In (l : list string) (y : string) : In y (sorted l) <-> In y l.
Proof.
  induction l as [| x l IH]; [reflexivity |].
  unfold sorted in *. cbn [fold_right In].
  rewrite insert_sorted_In, IH. intuition.
Qed.

Lemma leb_false_slt (x y : string) : String.leb x y = false -> slt y x.
Proof.
  unfold String.leb. intros H. apply slt_compare.
  rewrite String.compare_antisym.
  destruct (String.compare x y); try discriminate. reflexivity.
Qed.

Lemma leb_true_slt (x y : string) :
  String.leb x y = true -> x <> y -> slt x y.
Proof.
  unfold String.leb. intros H Hne. apply slt_compare.
  destruct (String.compare x y) eqn:Hc; try discriminate; [| reflexivity].
  apply String.compare_eq_iff in Hc. contradiction.
Qed.

Lemma insert_sorted_ascending (x : string) (l : list string) :
  StronglySorted slt l -> ~ In x l -> StronglySorted slt (insert_sorted x l).
Proof.
  induction l as [| z l IH]; intros Hs Hnin; cbn [insert_sorted].
  - repeat constructor.
  - inversion Hs as [| z' l' Hs' Hall]; subst.
    assert (Hxz : x <> z) by (intros ->; apply Hnin; now left).
    destruct (String.leb x z) eqn:Hl.
    + pose proof (leb_true_slt _ _ Hl Hxz) as Hlt.
      constructor; [exact Hs |]. constructor; [exact Hlt |].
      eapply Forall_impl; [| exact Hall].
      intros y Hy. now apply (slt_trans x z y).
    + constructor.
      * apply IH; [exact Hs' |]. intros H. apply Hnin. now right.
      * apply Forall_forall. intros y Hy. apply insert_sorted_In in Hy.
        destruct Hy as [-> | Hy]; [now apply leb_false_slt |].
        rewrite Forall_forall in Hall. now apply Hall.
Qed.

Lemma sorted_ascending (l : list string) :
  NoDup l -> StronglySorted slt (sorted l).
Proof.
  induction 1 as [| x l Hnin Hnd IH]; [constructor |].
  unfold sorted in *. cbn [fold_right].
  apply insert_sorted_ascending; [exact IH |].
  intros H. apply Hnin. now apply (sorted_In l x).
Qed.

(** The country selector offers "All" first and then every source country
    present in the network exactly once, in ascending order; picking any
    offered country other than "All" leaves at least one route, all with
    that source country, and picking "All" leaves the network as it is. *)
Theorem country_options_cover_the_network :
  forall routes : list EnrichedRoute,
    let options := country_options routes in
    hd_error options = Some "All" /\
    StronglySorted slt (tl options) /\
    (forall c : string,
        In c (tl options) <->
        exists row, In row routes /\ SourceCountry row = Some c) /\
    (forall c : string,
        In c (tl options) -> c <> "All" ->
        filter_by_country routes c <> [] /\
        Forall (fun row => SourceCountry row = Some c)
               (filter_by_country routes c)) /\
    filter_by_country routes "All" = routes.
Proof.
  intros routes options. subst options. unfold country_options. cbn [hd_error tl].
  assert (Hin : forall c,
             In c (sorted (unique (dropna (map SourceCountry routes)))) <->
             exists row, In row routes /\ SourceCountry row = Some c).
  { intros c. rewrite sorted_In, unique_In, dropna_In, in_map_iff.
    split; intros (row & H1 & H2); exists row; auto. }
  split; [reflexivity |].
  split; [apply sorted_ascending, unique_NoDup |].
  split; [exact Hin |].
  split; [| reflexivity].
  intros c Hc Hne. apply Hin in Hc. destruct Hc as (row & Hrow & Hcountry).
  unfold filter_by_country.
  destruct (String.eqb_spec c "All") as [E | _]; [contradiction |].
  split.
  - assert (H : In row (filter (fun r => eq (SourceCountry r) c) routes)).
    { apply filter_In. split; [exact Hrow |]. now apply eq_cell_true. }
    intros E. rewrite E in H. contradiction.
  - apply Forall_forall. intros r Hr. apply filter_In in Hr.
    now apply eq_cell_true.
Qed.

End SelectorProperties.

(** ** Further properties of the live flight gateway *)
Section GatewayProperties.
Import Runtime Http Gateway Page.
Local Open Scope string_scope.

Lemma key_present (w : World) (key : string) :
  AVIATIONSTACK_KEY w = Some key -> key <> "" ->
  key_missing (AVIATIONSTACK_KEY w) = false.
Proof.
  intros -> Hne. cbn. now destruct (String.eqb_spec key "").
Qed.

Lemma fetch_with_key (origin destination : string) (limit : Z) (w : World)
  (key : string) :
  AVIATIONSTACK_KEY w = Some key -> key <> "" ->
  run (fetch origin destination limit) w
  = (attempt (peer w (flights_request key origin destination limit)),
     mkWorld (hash_secret w) (os_entropy w) (entropy_drawn w)
             (wall_clock w) (clock_read w) (AVIATIONSTACK_KEY w) (peer w)
             (requests_sent w ++ [flights_request key origin destination limit])).
Proof.
  intros Hk Hne. unfold run, fetch, bind, read_key, requests_get, ret.
  rewrite (key_present w key Hk Hne), Hk. reflexivity.
Qed.

Lemma get_live_flights_with_key (origin destination : string) (limit : Z)
  (w : World) (key : string) :
  AVIATIONSTACK_KEY w = Some key -> key <> "" ->
  run (get_live_flights origin destination limit) w
  = (match attempt (peer w (flights_request key origin destination limit)) with
     | inl message => error_dict message
     | inr payload => payload
     end,
     mkWorld (hash_secret w) (os_entropy w) (entropy_drawn w)
             (wall_clock w) (clock_read w) (AVIATIONSTACK_KEY w) (peer w)
             (requests_sent w ++ [flights_request key origin destination limit])).
Proof.
  intros Hk Hne. unfold run, get_live_flights, bind.
  pose proof (fetch_with_key origin destination limit w key Hk Hne) as H.
  unfold run in H. rewrite H. reflexivity.
Qed.

(** With a key in the environment one call sends exactly one GET request,
    whatever the outcome (no retry): to the flights endpoint, with the key,
    the origin as dep_iata, the destination as arr_iata, the limit, and a
    timeout of 10; nothing else in the world changes. *)
Theorem get_live_flights_sends_one_request :
  forall (origin destination : string) (limit : Z) (w : World) (key : string),
    AVIATIONSTACK_KEY w = Some key -> key <> "" ->
    let w' := world_after (get_live_flights origin destination limit) w in
    requests_sent w'
    = (requests_sent w
       ++ [mkRequest "http://api.aviationstack.com/v1/flights" key origin
                     destination limit 10])%list /\
    hash_secret w' = hash_secret w /\
    entropy_drawn w' = entropy_drawn w /\
    clock_read w' = clock_read w /\
    AVIATIONSTACK_KEY w' = AVIATIONSTACK_KEY w.
Proof.
  intros origin destination limit w key Hk Hne w'. subst w'.
  unfold world_after.
  pose proof (get_live_flights_with_key origin destination limit w key Hk Hne)
    as H.
  unfold run in H. rewrite H. cbn [snd]. repeat split.
Qed.

(** One request for SYD to MEL from the sample process with a key. *)
Lemma get_live_flights_sends_one_request_witness :
  AVIATIONSTACK_KEY (MoreSamples.online (Raised "timed out")) = Some "k3y" /\
  "k3y" <> "" /\
  List.length
    (requests_sent
       (world_after (get_live_flights "SYD" "MEL" 10)
                    (MoreSamples.online (Raised "timed out")))) = 1%nat.
Proof.
  assert (Hne : "k3y" <> "") by discriminate.
  split; [reflexivity |]. split; [exact Hne |].
  rewrite (proj1 (get_live_flights_sends_one_request "SYD" "MEL" 10
                    (MoreSamples.online (Raised "timed out")) "k3y"
                    eq_refl Hne)).
  reflexivity.
Defined.

(** With a key in the environment every failure of the exchange comes back
    as {"error": text} with the text of the exception unchanged: when the
    request raises; when the status is 4xx or 5xx, whatever the body holds;
    and when the body of another response is not JSON.  The page shows each
    as an error with that text. *)
Theorem get_live_flights_reports_failures :
  forall (origin destination : string) (limit : Z) (w : World) (key : string),
    AVIATIONSTACK_KEY w = Some key -> key <> "" ->
    let out := peer w (flights_request key origin destination limit) in
    let v := result (get_live_flights origin destination limit) w in
    (forall message, out = Raised message ->
        v = error_dict message /\ render v = StError (JStr message)) /\
    (forall status http_error body,
        out = Responded status http_error body ->
        (400 <= status < 600)%Z ->
        v = error_dict http_error /\ render v = StError (JStr http_error)) /\
    (forall status http_error message,
        out = Responded status http_error (inl message) ->
        ~ (400 <= status < 600)%Z ->
        v = error_dict message /\ render v = StError (JStr message)).
Proof.
  intros origin destination limit w key Hk Hne out v.
  assert (Hv : v = match attempt out with
                   | inl message => error_dict message
                   | inr payload => payload
                   end).
  { subst v out. unfold result.
    pose proof (get_live_flights_with_key origin destination limit w key
                  Hk Hne) as H.
    unfold run in H. now rewrite H. }
  split; [| split].
  - intros message Ho. rewrite Hv, Ho. cbn. split; reflexivity.
  - intros status http_error body Ho Hs. rewrite Hv, Ho. cbn [attempt].
    destruct (Z.leb_spec 400 status); [| lia].
    destruct (Z.ltb_spec status 600); [| lia].
    cbn. split; reflexivity.
  - intros status http_error message Ho Hs. rewrite Hv, Ho. cbn [attempt].
    destruct (Z.leb_spec 400 status); destruct (Z.ltb_spec status 600);
      cbn [andb]; try lia; split; reflexivity.
Qed.

(** A 404 with a JSON body is still a failure. *)
Lemma get_live_flights_reports_failures_witness :
  let w := MoreSamples.online
             (Responded 404 "404 Client Error: Not Found"
                        (inr (JObj [("data", JArr [])]))) in
  AVIATIONSTACK_KEY w = Some "k3y" /\ "k3y" <> "" /\
  result (get_live_flights "SYD" "MEL" 10) w
  = error_dict "404 Client Error: Not Found".
Proof.
  intros w.
  assert (Hne : "k3y" <> "") by discriminate.
  split; [reflexivity |]. split; [exact Hne |].
  destruct (get_live_flights_reports_failures "SYD" "MEL" 10 w "k3y"
              eq_refl Hne) as (_ & H & _).
  exact (proj1 (H 404%Z "404 Client Error: Not Found"
                  (inr (JObj [("data", JArr [])])) eq_refl ltac:(lia))).
Defined.

(** Whatever the world, a call returns either a failure dict
    {"error": text} or, unchanged, the decoded JSON body of a response whose
    status is not 4xx or 5xx, obtained with the key of the environment. *)
Theorem get_live_flights_returns_error_or_body :
  forall (origin destination : string) (limit : Z) (w : World),
    let v := result (get_live_flights origin destination limit) w in
    (exists message, v = error_dict message) \/
    (exists key status http_error,
        AVIATIONSTACK_KEY w = Some key /\ key <> "" /\
        peer w (flights_request key origin destination limit)
        = Responded status http_error (inr v) /\
        ~ (400 <= status < 600)%Z).
Proof.
  intros origin destination limit w v.
  destruct (key_missing (AVIATIONSTACK_KEY w)) eqn:Hm.
  - left. exists missing_key_message. subst v.
    unfold result, get_live_flights, fetch, bind, read_key, ret.
    now rewrite Hm.
  - destruct (AVIATIONSTACK_KEY w) as [key |] eqn:Hk; [| discriminate].
    assert (Hne : key <> "").
    { intros ->. cbn in Hm. discriminate. }
    assert (Hv : v = match attempt (peer w (flights_request key origin
                                              destination limit)) with
                     | inl message => error_dict message
                     | inr payload => payload
                     end).
    { subst v. unfold result.
      pose proof (get_live_flights_with_key origin destination limit w key
                    Hk Hne) as H.
      unfold run in H. now rewrite H. }
    destruct (peer w (flights_request key origin destination limit))
      as [message | status http_error body] eqn:Ho.
    + left. exists message. exact Hv.
    + cbn [attempt] in Hv.
      destruct ((400 <=? status)%Z && (status <? 600)%Z) eqn:Hs.
      * left. exists http_error. exact Hv.
      * destruct body as [message | payload].
        -- left. exists message. exact Hv.
        -- right. exists key, status, http_error. subst payload.
           repeat split; try assumption; try reflexivity.
           intros [H1 H2]. apply andb_false_iff in Hs.
           destruct Hs as [Hs | Hs];
             [apply Z.leb_gt in Hs | apply Z.ltb_ge in Hs]; lia.
Qed.

End GatewayProperties.

(** ** Further properties of the trend simulator *)
Section SimulatorProperties.
Import Runtime Simulator.
Local Open Scope R_scope.

Lemma price_base_range (route : string) (w : World) :
  (100 <= result (price_base route) w < 150)%Z.
Proof.
  change (result (price_base route) w)
    with (100 + PyHash.hash (hash_secret w) route mod 50)%Z.
  pose proof (Z.mod_pos_bound (PyHash.hash (hash_secret w) route) 50
                ltac:(lia)).
  lia.
Qed.

Lemma sin_next_year (t : nat) :
  sin (2 * PI * INR (t + 12) / 12) = sin (2 * PI * INR t / 12).
Proof.
  rewrite plus_INR.
  replace (2 * PI * (INR t + INR 12) / 12)
    with (2 * PI * INR t / 12 + 2 * INR 1 * PI) by (simpl; field).
  apply sin_period.
Qed.

(** The price series is level[t] + 6 z[t], where z is the standard-normal
    stream of the call and level[t] = base + 15 sin(2 pi t / 12) + 0.5 t is
    free of noise: the level stays between 85 + 0.5 t and 164 + 0.5 t and
    rises by exactly 6 from one year to the next. *)
Theorem price_level_bounds_and_trend :
  forall (gen : N -> nat -> R) (route : string) (months : nat)
         (seed : option N) (w : World),
    let base := result (price_base route) w in
    let z := gen (effective_seed seed w) in
    let level := fun t : nat =>
                   IZR base + 15 * sin (2 * PI * INR t / 12) + 0.5 * INR t in
    price (result (simulate_price_trend gen route months seed) w)
    = map (fun t => level t + 6 * z t) (seq 0 months) /\
    (forall t : nat, 85 + 0.5 * INR t <= level t <= 164 + 0.5 * INR t) /\
    (forall t : nat, level (t + 12)%nat = level t + 6).
Proof.
  intros gen route months seed w base z level. split; [| split].
  - rewrite price_spec. apply map_ext. intros t. subst level z base.
    cbv beta. ring.
  - intros t. subst level. cbv beta.
    pose proof (SIN_bound (2 * PI * INR t / 12)) as [Hlo Hhi].
    pose proof (price_base_range route w) as [Hb1 Hb2]. fold base in Hb1, Hb2.
    assert (Hb2' : (base <= 149)%Z) by lia.
    apply IZR_le in Hb1. apply IZR_le in Hb2'. lra.
  - intros t. subst level. cbv beta.
    rewrite sin_next_year, plus_INR. simpl (INR 12). lra.
Qed.

(** The clamp at zero only matters for a variate below -17: at an index
    whose variate is at least -17 the value before conversion is already
    non-negative and the booking count is its floor. *)
Theorem bookings_floor_without_clamp :
  forall (gen : N -> nat -> R) (route : string) (months : nat)
         (seed : option N) (w : World) (t : nat),
    (t < months)%nat ->
    -17 <= gen (effective_seed seed w) t ->
    let x := IZR (result (booking_base route) w)
             + 300 * (1 + 0.4 * sin (2 * PI * INR t / 12))
             + 40 * gen (effective_seed seed w) t in
    let b := nth t (bookings (result (simulate_booking_counts gen route months
                                        seed) w)) 0%Z in
    0 <= x /\ b = Zfloor x /\ x - 1 < IZR b <= x.
Proof.
  intros gen route months seed w t Ht Hz x b.
  pose proof (SIN_bound (2 * PI * INR t / 12)) as [Hlo Hhi].
  pose proof (proj2 (booking_base_range route w)) as [Hb1 _].
  apply IZR_le in Hb1.
  assert (Hx : 0 <= x) by (subst x; lra).
  assert (Hb : b = Zfloor x).
  { subst b. rewrite bookings_spec, nth_map_seq by exact Ht.
    rewrite Rplus_0_l. fold x.
    rewrite Rmax_right by exact Hx. now apply astype_int_nonneg. }
  split; [exact Hx |]. split; [exact Hb |].
  rewrite Hb. pose proof (Zfloor_bound x). lra.
Qed.

(** Seed 42, month 3 of 36 on the sample generator: 1041.62... becomes 1041. *)
Lemma bookings_floor_without_clamp_witness :
  (3 < 36)%nat /\
  -17 <= Samples.sample_normal (effective_seed (Some 42%N) (Samples.process 0)) 3 /\
  (0 <= nth 3 (bookings (result (simulate_booking_counts Samples.sample_normal
                                   "SYD-MEL" 36 (Some 42%N))
                                (Samples.process 0))) 0%Z)%Z.
Proof.
  assert (Hz : -17 <= Samples.sample_normal
                        (effective_seed (Some 42%N) (Samples.process 0)) 3).
  { cbn [effective_seed]. unfold Samples.sample_normal.
    cbn [N.eqb Pos.eqb]. lra. }
  split; [lia |]. split; [exact Hz |].
  destruct (bookings_floor_without_clamp Samples.sample_normal "SYD-MEL" 36
              (Some 42%N) (Samples.process 0) 3 ltac:(lia) Hz)
    as (Hx & Hb & _).
  rewrite Hb. apply Zfloor_lub. exact Hx.
Defined.

(** Both baselines come from the one hash of the route, so the booking
    baseline fixes the price baseline:
    base = 100 + ((base2 - 500) mod 50). *)
Theorem price_base_from_booking_base :
  forall (route : string) (w : World),
    result (price_base route) w
    = (100 + (result (booking_base route) w - 500) mod 50)%Z.
Proof.
  intros route w.
  change (result (price_base route) w)
    with (100 + PyHash.hash (hash_secret w) route mod 50)%Z.
  change (result (booking_base route) w)
    with (500 + PyHash.hash (hash_secret w) route mod 200)%Z.
  replace (500 + PyHash.hash (hash_secret w) route mod 200 - 500)%Z
    with (PyHash.hash (hash_secret w) route mod 200)%Z by lia.
  rewrite Z.mod_mod_divide; [reflexivity |].
  exists 4%Z. reflexivity.
Qed.

(** What generating both series touches: the clock is read twice, OS entropy
    is drawn twice without a seed (the price and booking generators then get
    two different seeds) and not at all with one, and the hash secret, the
    API key and the list of HTTP requests sent are left alone. *)
Theorem simulate_effects :
  forall (gen : N -> nat -> R) (route : string) (months : nat)
         (seed : option N) (w : World),
    let w' := world_after (simulate gen route months seed) w in
    clock_read w' = S (S (clock_read w)) /\
    entropy_drawn w' = (match seed with
                        | Some _ => entropy_drawn w
                        | None => S (S (entropy_drawn w))
                        end) /\
    hash_secret w' = hash_secret w /\
    AVIATIONSTACK_KEY w' = AVIATIONSTACK_KEY w /\
    requests_sent w' = requests_sent w /\
    (seed = None ->
     price (fst (result (simulate gen route months seed) w))
     = price (result (simulate_price_trend gen route months
                        (Some (os_entropy w (entropy_drawn w)))) w) /\
     bookings (snd (result (simulate gen route months seed) w))
     = bookings (result (simulate_booking_counts gen route months
                           (Some (os_entropy w (S (entropy_drawn w))))) w)).
Proof.
  intros gen route months seed w w'. subst w'.
  destruct seed as [s |].
  - do 5 (split; [reflexivity |]). discriminate.
  - do 5 (split; [reflexivity |]). intros _.
    rewrite simulate_result. cbn [fst snd].
    rewrite !price_spec, !bookings_spec. split; reflexivity.
Qed.

End SimulatorProperties.

(** ** The live-flights section of the page *)
Section PageProperties.
Import Runtime Http Tables Ranker Gateway Page.
Local Open Scope string_scope.

Lemma first_match_in {A : Type} (f : A -> bool) (l : list A) (x : A)
  (rest : list A) :
  filter f l = x :: rest -> In x l /\ f x = true.
Proof.
  intros H. apply filter_In. rewrite H. now left.
Qed.

Lemma no_match_absent (network : list EnrichedRoute) (sel : string) :
  filter (fun r => eq (route r) sel) network = [] <->
  ~ In (Some sel) (map route network).
Proof.
  split.
  - intros H Hin. apply in_map_iff in Hin. destruct Hin as (r & Hr & Hin).
    assert (Hf : In r (filter (fun r => eq (route r) sel) network)).
    { apply filter_In. split; [exact Hin |]. now apply eq_cell_true. }
    rewrite H in Hf. contradiction.
  - intros Hnin.
    destruct (filter (fun r => eq (route r) sel) network) as [| r rest] eqn:Hf;
      [reflexivity |].
    apply first_match_in in Hf. destruct Hf as [Hin Hr].
    apply eq_cell_true in Hr. exfalso. apply Hnin.
    apply in_map_iff. exists r. split; assumption.
Qed.

Lemma get_live_flights_without_key (origin destination : string) (limit : Z)
  (w : World) :
  key_missing (AVIATIONSTACK_KEY w) = true ->
  get_live_flights origin destination limit w
  = (error_dict missing_key_message, w).
Proof.
  intros Hk. unfold get_live_flights, fetch, bind, read_key, ret.
  now rewrite Hk.
Qed.

Lemma selected_from_network (airports : list Airport) (routes : list Route)
  (sel : string) :
  In (Some sel) (map route (prepare_routes airports routes)) ->
  exists o d : string,
    selected_endpoints (prepare_routes airports routes) (Some sel)
    = (Some (Some o), Some (Some d)) /\
    o ++ "-" ++ d = sel /\
    o <> null_sentinel /\ d <> null_sentinel.
Proof.
  intros Hin. unfold selected_endpoints.
  destruct (filter (fun r => eq (route r) sel) (prepare_routes airports routes))
    as [| r rest] eqn:Hf.
  - apply no_match_absent in Hf. contradiction.
  - apply first_match_in in Hf. destruct Hf as [Hr Hsel].
    apply eq_cell_true in Hsel.
    pose proof (prepare_routes_row _ _ _ Hr) as (Hfr & Hroute & _).
    unfold filter_routes in Hfr. apply filter_In in Hfr.
    destruct Hfr as [_ Hne]. apply andb_true_iff in Hne.
    destruct Hne as [Hs Hd]. apply ne_true in Hs. apply ne_true in Hd.
    rewrite Hsel in Hroute.
    destruct (SourceIATA (base_route r)) as [o |]; [| discriminate].
    destruct (DestIATA (base_route r)) as [d |]; [| discriminate].
    cbn [concat_cells] in Hroute. injection Hroute as Hroute.
    exists o, d.
    split; [reflexivity |]. split; [now symmetry |].
    split; intros E; subst; [now apply Hs | now apply Hd].
Qed.

(** The origin and destination looked up for a selected route re-join to
    the selection: for a route identifier of the network the lookup gives two
    strings o and d, neither the sentinel, with o ++ "-" ++ d equal to the
    selection; for an identifier that is not in the network, or no
    selection, it gives None, None. *)
Theorem selected_endpoints_rejoin :
  forall (airports : list Airport) (routes : list Route) (sel : string),
    let network := prepare_routes airports routes in
    (In (Some sel) (map route network) <->
     exists o d : string,
       selected_endpoints network (Some sel) = (Some (Some o), Some (Some d)) /\
       o ++ "-" ++ d = sel /\ o <> null_sentinel /\ d <> null_sentinel) /\
    (~ In (Some sel) (map route network) <->
     selected_endpoints network (Some sel) = (None, None)) /\
    selected_endpoints network None = (None, None).
Proof.
  intros airports routes sel network.
  assert (Habsent : ~ In (Some sel) (map route network) ->
                    selected_endpoints network (Some sel) = (None, None)).
  { intros Hnin. unfold selected_endpoints.
    now rewrite (proj2 (no_match_absent network sel) Hnin). }
  split; [| split; [| reflexivity]].
  - split; [apply selected_from_network |].
    intros (o & d & Hsel & _).
    assert (Hdec : forall x y : option string, {x = y} + {x <> y})
      by (decide equality; apply string_dec).
    destruct (in_dec Hdec (Some sel) (map route network))
      as [Hin | Hnin]; [exact Hin |].
    rewrite (Habsent Hnin) in Hsel. discriminate.
  - split; [exact Habsent |].
    intros Hnone Hin.
    destruct (selected_from_network airports routes sel Hin)
      as (o & d & Hsel & _).
    fold network in Hsel. rewrite Hnone in Hsel. discriminate.
Qed.

(** Without a click, without a selection, or with a selection that is not a
    route of the network, the live-flights section shows nothing and does
    nothing: the world is unchanged and no request is sent. *)
Theorem live_section_idle :
  forall (airports : list Airport) (routes : list Route)
         (route_selected : option string) (clicked : bool) (w : World),
    let network := prepare_routes airports routes in
    clicked = false \/
    route_selected = None \/
    (exists sel, route_selected = Some sel /\
                 ~ In (Some sel) (map route network)) ->
    run (live_section network route_selected clicked) w = (None, w).
Proof.
  intros airports routes route_selected clicked w network H.
  unfold run, live_section.
  destruct H as [-> | [-> | (sel & -> & Hnin)]].
  - destruct (pyval_truthy _ && pyval_truthy _); reflexivity.
  - reflexivity.
  - unfold selected_endpoints.
    now rewrite (proj2 (no_match_absent network sel) Hnin).
Qed.

(** Nothing is selected on the sample network. *)
Lemma live_section_idle_witness :
  run (live_section MoreSamples.sample_network None true)
      (MoreSamples.online (Raised "timed out"))
  = (None, MoreSamples.online (Raised "timed out")).
Proof.
  apply (live_section_idle Samples.sample_airports
           (dropna_routes Samples.sample_routes) None true
           (MoreSamples.online (Raised "timed out"))).
  right. left. reflexivity.
Defined.

(** A click on a route of the network whose two codes are not empty calls
    the gateway once with that route's own codes and the default limit, and
    shows what the gateway's result renders to.  With a key in the
    environment the one request sent has dep_iata ++ "-" ++ arr_iata equal to
    the selected route and limit 10; without a key the section shows the
    missing-key error and sends nothing. *)
Theorem live_section_requests_selected_route :
  forall (airports : list Airport) (routes : list Route) (sel : string)
         (w : World),
    let network := prepare_routes airports routes in
    In (Some sel) (map route network) ->
    exists o d : string,
      o ++ "-" ++ d = sel /\
      ((o = "" \/ d = "") ->
       run (live_section network (Some sel) true) w = (None, w)) /\
      (o <> "" -> d <> "" ->
       run (live_section network (Some sel) true) w
       = (Some (render (result (get_live_flights o d 10) w)),
          world_after (get_live_flights o d 10) w) /\
       (key_missing (AVIATIONSTACK_KEY w) = true ->
        run (live_section network (Some sel) true) w
        = (Some (StError (JStr missing_key_message)), w)) /\
       (forall key, AVIATIONSTACK_KEY w = Some key -> key <> "" ->
          requests_sent (world_after (live_section network (Some sel) true) w)
          = (requests_sent w ++ [flights_request key o d 10])%list)).
Proof.
  intros airports routes sel w network Hin.
  destruct (selected_from_network airports routes sel Hin)
    as (o & d & Hsel & Hjoin & _).
  fold network in Hsel. exists o, d. split; [exact Hjoin |].
  assert (Hrun : o <> "" -> d <> "" ->
                 run (live_section network (Some sel) true) w
                 = (Some (render (result (get_live_flights o d 10) w)),
                    world_after (get_live_flights o d 10) w)).
  { intros Ho Hd. unfold run, live_section. rewrite Hsel.
    cbn [fst snd pyval_truthy pyval_text].
    destruct (String.eqb_spec o "") as [E | _]; [contradiction |].
    destruct (String.eqb_spec d "") as [E | _]; [contradiction |].
    cbn [negb andb]. unfold bind, ret, result, world_after, limit_default.
    now destruct (get_live_flights o d 10 w). }
  split.
  - intros Hempty. unfold run, live_section. rewrite Hsel.
    cbn [fst snd pyval_truthy].
    destruct Hempty as [-> | ->]; cbn [String.eqb negb andb];
      [reflexivity | now rewrite andb_false_r].
  - intros Ho Hd. split; [now apply Hrun |]. split.
    + intros Hmiss. rewrite (Hrun Ho Hd).
      unfold result, world_after.
      rewrite (get_live_flights_without_key o d 10 w Hmiss). reflexivity.
    + intros key Hk Hne.
      change (world_after (live_section network (Some sel) true) w)
        with (snd (run (live_section network (Some sel) true) w)).
      rewrite (Hrun Ho Hd). cbn [snd].
      unfold world_after.
      pose proof (get_live_flights_with_key o d 10 w key Hk Hne) as Hg.
      unfold run in Hg. rewrite Hg. reflexivity.
Qed.

(** A click on SYD-MEL in the sample network with a key: one request,
    SYD to MEL. *)
Lemma live_section_requests_selected_route_witness :
  In (Some "SYD-MEL") (map route MoreSamples.sample_network) /\
  exists o d : string, o ++ "-" ++ d = "SYD-MEL".
Proof.
  assert (Hin : In (Some "SYD-MEL") (map route MoreSamples.sample_network))
    by (vm_compute; auto).
  split; [exact Hin |].
  destruct (live_section_requests_selected_route Samples.sample_airports
              (dropna_routes Samples.sample_routes) "SYD-MEL"
              (MoreSamples.online (Raised "timed out")) Hin)
    as (o & d & Hjoin & _).
  exists o, d. exact Hjoin.
Defined.

End PageProperties.

Section SelectorAndRenderProperties.
Import Runtime Http Tables Ranker Gateway Page.
Local Open Scope string_scope.

Lemma head_prefix {A : Type} (n : Z) (rows : list A) :
  exists rest : list A, rows = (head n rows ++ rest)%list.
Proof.
  unfold head. destruct (0 <=? n)%Z.
  - exists (skipn (Z.to_nat n) rows). symmetry. apply firstn_skipn.
  - exists (skipn (List.length rows - Z.to_nat (- n)) rows).
    symmetry. apply firstn_skipn.
Qed.

Lemma filter_by_country_incl (routes : list EnrichedRoute) (c : string) :
  incl (filter_by_country routes c) routes.
Proof.
  unfold filter_by_country. destruct (String.eqb c "All").
  - apply incl_refl.
  - apply incl_filter.
Qed.

(** The route selector offers at most 200 identifiers, all different, each
    the route of at least one row of the network under the current filter;
    so the lookup of lines 164-167 finds a row for whichever one is
    picked. *)
Theorem route_options_are_routes_of_the_network :
  forall (argsort : list Z -> list nat) (airports : list Airport)
         (routes : list Route) (country_filter : string),
    let network := prepare_routes airports routes in
    sorts_ascending argsort
      (rev (map count (groupby_size (filter_by_country network country_filter)))) ->
    let options := route_options argsort network country_filter in
    (List.length options <= 200)%nat /\
    NoDup options /\
    Forall (fun sel =>
              In (Some sel) (map route (filter_by_country network country_filter)) /\
              exists o d : string,
                selected_endpoints network (Some sel)
                = (Some (Some o), Some (Some d)) /\
                o ++ "-" ++ d = sel)
           options.
Proof.
  intros argsort airports routes country_filter network Hsort options.
  subst options. unfold route_options.
  set (records := route_counts argsort network country_filter).
  destruct (head_prefix 200 records) as [rest Hrest].
  assert (Hperm : Permutation records
                    (groupby_size (filter_by_country network country_filter)))
    by (apply sort_values_permutation; exact Hsort).
  assert (Hnd : NoDup (map rc_route records)).
  { apply (Permutation_NoDup (Permutation_map rc_route (Permutation_sym Hperm))).
    rewrite groupby_size_routes. apply sorted_NoDup, group_keys_sorted. }
  split; [| split].
  - rewrite length_map. unfold head. cbn [Z.leb Z.compare].
    apply firstn_le_length.
  - rewrite Hrest, map_app in Hnd. now apply NoDup_app_remove_r in Hnd.
  - apply Forall_forall. intros sel Hsel. apply in_map_iff in Hsel.
    destruct Hsel as (r & <- & Hr).
    assert (Hin : In r records)
      by (rewrite Hrest; apply in_or_app; now left).
    apply (Permutation_in _ Hperm), groupby_size_In in Hin.
    destruct Hin as [Hin _]. split; [exact Hin |].
    assert (Hnet : In (Some (rc_route r)) (map route network)).
    { apply in_map_iff in Hin. destruct Hin as (row & Hrow & Hin).
      apply in_map_iff. exists row. split; [exact Hrow |].
      now apply (filter_by_country_incl network country_filter). }
    destruct (selected_from_network airports routes (rc_route r) Hnet)
      as (o & d & H1 & H2 & _).
    exists o, d. split; assumption.
Qed.

(** On the sample network under "Australia" there are two options. *)
Lemma route_options_are_routes_of_the_network_witness :
  sorts_ascending stable_argsort
    (rev (map count
            (groupby_size
               (filter_by_country
                  (prepare_routes Samples.sample_airports Samples.sample_routes)
                  "Australia")))) /\
  NoDup (route_options stable_argsort
           (prepare_routes Samples.sample_airports Samples.sample_routes)
           "Australia").
Proof.
  split; [exact sample_ranking_sorts |].
  exact (proj1 (proj2
    (route_options_are_routes_of_the_network stable_argsort
       Samples.sample_airports Samples.sample_routes "Australia"
       sample_ranking_sorts))).
Defined.


End SelectorAndRenderProperties.
